(** * NH3 threshold monitor for the ULP RISC-V coprocessor

    A shallow embedding of [firmware/ulp/ulp_nh3_monitor.c] (the sampling
    loop) and of [firmware/ulp_nh3_component/ulp_exports.c] (the symbol
    table kept for the host), with the properties of the interface contract
    proved over it.

    The six shared variables are [volatile uint32_t]; they are modelled as
    integers of [Z] with the 32-bit wrap-around written out by [u32].  The
    ADC driver, the delay, the wake-up call and the halt are the platform's;
    they appear as events of a trace, the sensor's return values being an
    input of the run. *)

From Stdlib Require Import ZArith List Bool Lia String.
Import ListNotations.

#[local] Open Scope Z_scope.

(** ** Machine integers *)

Definition u32_modulus : Z := 2 ^ 32.

(** The value a [uint32_t] holds after a store of [z]; also the cast
    [(uint32_t)z] of a signed value. *)
Definition u32 (z : Z) : Z := z mod u32_modulus.

Definition is_u32 (z : Z) : Prop := 0 <= z < u32_modulus.

(** The range of the [int32_t] the ADC driver returns. *)
Definition is_i32 (z : Z) : Prop := - 2 ^ 31 <= z < 2 ^ 31.

(** ** Shared variables (ulp_nh3_monitor.c, lines 18-23) *)

Record ulp_state : Type := mk_ulp_state {
  ulp_nh3_threshold_adc : Z;
  ulp_nh3_last_reading  : Z;
  ulp_nh3_above_count   : Z;
  ulp_nh3_confirm_count : Z;
  ulp_cycle_count       : Z;
  ulp_stop_flag         : Z
}.

(** The initialisers of the six definitions. *)
Definition initial_state : ulp_state :=
  {| ulp_nh3_threshold_adc := 1500;
     ulp_nh3_last_reading  := 0;
     ulp_nh3_above_count   := 0;
     ulp_nh3_confirm_count := 3;
     ulp_cycle_count       := 0;
     ulp_stop_flag         := 0 |}.

Definition wf_state (s : ulp_state) : Prop :=
  is_u32 (ulp_nh3_threshold_adc s) /\ is_u32 (ulp_nh3_last_reading s) /\
  is_u32 (ulp_nh3_above_count s) /\ is_u32 (ulp_nh3_confirm_count s) /\
  is_u32 (ulp_cycle_count s) /\ is_u32 (ulp_stop_flag s).

Definition set_last_reading (v : Z) (s : ulp_state) : ulp_state :=
  {| ulp_nh3_threshold_adc := ulp_nh3_threshold_adc s;
     ulp_nh3_last_reading  := v;
     ulp_nh3_above_count   := ulp_nh3_above_count s;
     ulp_nh3_confirm_count := ulp_nh3_confirm_count s;
     ulp_cycle_count       := ulp_cycle_count s;
     ulp_stop_flag         := ulp_stop_flag s |}.

Definition set_above_count (v : Z) (s : ulp_state) : ulp_state :=
  {| ulp_nh3_threshold_adc := ulp_nh3_threshold_adc s;
     ulp_nh3_last_reading  := ulp_nh3_last_reading s;
     ulp_nh3_above_count   := v;
     ulp_nh3_confirm_count := ulp_nh3_confirm_count s;
     ulp_cycle_count       := ulp_cycle_count s;
     ulp_stop_flag         := ulp_stop_flag s |}.

Definition set_cycle_count (v : Z) (s : ulp_state) : ulp_state :=
  {| ulp_nh3_threshold_adc := ulp_nh3_threshold_adc s;
     ulp_nh3_last_reading  := ulp_nh3_last_reading s;
     ulp_nh3_above_count   := ulp_nh3_above_count s;
     ulp_nh3_confirm_count := ulp_nh3_confirm_count s;
     ulp_cycle_count       := v;
     ulp_stop_flag         := ulp_stop_flag s |}.

(** ** The host side

    The host reads all six variables and writes three of them: the
    threshold, the confirm count and the stop flag.  Each of the three is
    read by the program once per iteration (lines 41, 43 and 31), so a host
    store that lands anywhere inside an iteration is seen either by this
    iteration or by the next one; it is modelled as taking place at the top
    of the iteration that first sees it. *)

Record host_write : Type := mk_host_write {
  hw_threshold : option Z;
  hw_confirm   : option Z;
  hw_stop      : option Z
}.

Definition no_write : host_write :=
  {| hw_threshold := None; hw_confirm := None; hw_stop := None |}.

Definition stored (old : Z) (w : option Z) : Z :=
  match w with
  | Some v => u32 v
  | None => old
  end.

Definition host_apply (h : host_write) (s : ulp_state) : ulp_state :=
  {| ulp_nh3_threshold_adc := stored (ulp_nh3_threshold_adc s) (hw_threshold h);
     ulp_nh3_last_reading  := ulp_nh3_last_reading s;
     ulp_nh3_above_count   := ulp_nh3_above_count s;
     ulp_nh3_confirm_count := stored (ulp_nh3_confirm_count s) (hw_confirm h);
     ulp_cycle_count       := ulp_cycle_count s;
     ulp_stop_flag         := stored (ulp_stop_flag s) (hw_stop h) |}.

(** ** Platform calls, as events

    [ulp_riscv_delay_cycles] is called with the sample interval converted
    to cycles by the platform's [ULP_RISCV_CYCLES_PER_US]; the event keeps
    the interval in microseconds.  [ulp_riscv_halt] stops the coprocessor
    and does not return. *)

Definition SAMPLE_INTERVAL_US : Z := 200 * 1000.

Inductive event : Type :=
| EvRead (raw : Z)      (* ulp_riscv_adc_read_channel returned [raw] *)
| EvDelay (us : Z)      (* ulp_riscv_delay_cycles for [us] microseconds *)
| EvWake                (* ulp_riscv_wakeup_main_processor *)
| EvHalt.               (* ulp_riscv_halt: the coprocessor stops *)

Inductive flow : Type :=
| Running               (* control is back at the loop test *)
| Halted.               (* ulp_riscv_halt was called *)

(** ** The program (ulp_nh3_monitor.c, lines 29-56) *)

(** Lines 32-51: one pass through the loop body, [raw] being what the ADC
    driver returns at line 32. *)
Definition loop_body (raw : Z) (s : ulp_state) : ulp_state * list event * flow :=
  if raw <? 0 then
    (s, [EvRead raw; EvDelay SAMPLE_INTERVAL_US], Running)
  else
    let s1 := set_last_reading (u32 raw) s in
    let s2 := set_cycle_count (u32 (ulp_cycle_count s1 + 1)) s1 in
    if ulp_nh3_threshold_adc s2 <=? u32 raw then
      let s3 := set_above_count (u32 (ulp_nh3_above_count s2 + 1)) s2 in
      if ulp_nh3_confirm_count s3 <=? ulp_nh3_above_count s3 then
        (s3, [EvRead raw; EvWake; EvHalt], Halted)
      else
        (s3, [EvRead raw; EvDelay SAMPLE_INTERVAL_US], Running)
    else
      (set_above_count 0 s2, [EvRead raw; EvDelay SAMPLE_INTERVAL_US], Running).

(** Line 31 and what follows it: the loop test, then either the body or the
    final halt of line 54. *)
Definition loop_iter (raw : Z) (s : ulp_state) : ulp_state * list event * flow :=
  if ulp_stop_flag s =? 0 then loop_body raw s
  else (s, [EvHalt], Halted).

(** One input per iteration: what the host stored since the last loop test,
    and what the sensor returns if it is read. *)
Definition input : Type := host_write * Z.

(** [main], run against a finite prefix of the environment's behaviour.
    [Running] in the result says that the inputs are used up with control
    at the loop test. *)
Fixpoint main (ins : list input) (s : ulp_state) : ulp_state * list event * flow :=
  match ins with
  | [] => (s, [], Running)
  | (h, raw) :: rest =>
      match loop_iter raw (host_apply h s) with
      | (s', evs, Running) =>
          let '(s'', tr, fl) := main rest s' in (s'', evs ++ tr, fl)
      | (s', evs, Halted) => (s', evs, Halted)
      end
  end.

(** The parts of a result.  For a halted run the threshold, the confirm
    count and the stop flag of the final state are the values the program
    last read: a host store that lands after the variable's read in the
    halting iteration is seen by no iteration and has no place in the
    inputs. *)
Definition final_state (r : ulp_state * list event * flow) : ulp_state := fst (fst r).
Definition trace (r : ulp_state * list event * flow) : list event := snd (fst r).
Definition status (r : ulp_state * list event * flow) : flow := snd r.

(** ** Observations on a trace *)

(** The values the ADC driver returned, in order. *)
Fixpoint reads (tr : list event) : list Z :=
  match tr with
  | [] => []
  | EvRead raw :: tr' => raw :: reads tr'
  | _ :: tr' => reads tr'
  end.

(** The successful readings: the driver reports a failure by a negative
    return value (line 33). *)
Definition successes (tr : list event) : list Z :=
  filter (fun raw => 0 <=? raw) (reads tr).

(** ** Streaks of readings at or above the threshold *)

Definition at_or_above (thr raw : Z) : bool := thr <=? raw.

(** The first [n] readings of [l] exist and are all at or above [thr]. *)
Fixpoint window (n : nat) (thr : Z) (l : list Z) : bool :=
  match n with
  | O => true
  | S n' =>
      match l with
      | [] => false
      | raw :: l' => at_or_above thr raw && window n' thr l'
      end
  end.

(** Somewhere in [l] there are [n] consecutive readings at or above [thr]. *)
Fixpoint has_streak (n : nat) (thr : Z) (l : list Z) : bool :=
  window n thr l ||
  match l with
  | [] => false
  | _ :: l' => has_streak n thr l'
  end.

(** The number of consecutive readings a wake needs: the trigger test of
    line 43 comes after the increment of line 42, so a confirm count of
    zero asks for one reading as a confirm count of one does. *)
Definition readings_needed (s : ulp_state) : nat :=
  Z.to_nat (Z.max 1 (ulp_nh3_confirm_count s)).

(** ** Conditions on the inputs *)

(** The host leaves the threshold and the confirm count alone. *)
Definition keeps_config (i : input) : Prop :=
  hw_threshold (fst i) = None /\ hw_confirm (fst i) = None.

Definition keeps_confirm (i : input) : Prop := hw_confirm (fst i) = None.

(** The host leaves the stop flag alone. *)
Definition keeps_stop (i : input) : Prop := hw_stop (fst i) = None.

(** An input of the stretch between a lowered confirm count and the next
    reading at or above the threshold that leaves the trigger of line 43
    armed: no host store, and a reading that failed or, the confirm count
    being at most 1, fell below the threshold. *)
Definition quiet_input (thr cf : Z) (i : input) : Prop :=
  fst i = no_write /\
  (snd i < 0 \/ (cf <= 1 /\ 0 <= snd i /\ u32 (snd i) < thr)).

(** The store by which the host lowers the confirm count to [cf]. *)
Definition lower_confirm (cf : Z) : host_write :=
  {| hw_threshold := None; hw_confirm := Some cf; hw_stop := None |}.

(** [n] iterations without a host store in which the sensor returns 0. *)
Definition zero_readings (n : nat) : list input := repeat (no_write, 0) n.

(** The state the host leaves when it stores [cf] to the confirm count of
    the freshly loaded program. *)
Definition configured (cf : Z) : ulp_state :=
  host_apply {| hw_threshold := None; hw_confirm := Some cf; hw_stop := None |}
    initial_state.

(** ** The symbol table (ulp_exports.c, lines 6-13) *)

#[local] Open Scope string_scope.

(** The names of the six definitions of ulp_nh3_monitor.c, lines 18-23. *)
Definition shared_variables : list string :=
  [ "ulp_nh3_threshold_adc"; "ulp_nh3_last_reading"; "ulp_nh3_above_count";
    "ulp_nh3_confirm_count"; "ulp_cycle_count"; "ulp_stop_flag" ].

(** The name under which the host sees a variable of the ULP program. *)
Definition host_symbol (v : string) : string := "ulp_" ++ v.

(** The symbols whose addresses the array [petfilter_ulp_symbols] holds. *)
Definition petfilter_ulp_symbols : list string :=
  [ "ulp_ulp_nh3_threshold_adc"; "ulp_ulp_nh3_last_reading";
    "ulp_ulp_nh3_above_count"; "ulp_ulp_nh3_confirm_count";
    "ulp_ulp_cycle_count"; "ulp_ulp_stop_flag" ].

#[local] Close Scope string_scope.

(** ** Further observations, for the properties beyond the interface contract *)

(** The number of readings at the head of [l] that are at or above [thr]. *)
Fixpoint leading (thr : Z) (l : list Z) : nat :=
  match l with
  | [] => O
  | raw :: l' => if at_or_above thr raw then S (leading thr l') else O
  end.

(** The length of the streak in progress at the end of [l]: how many of the
    latest readings are at or above [thr] without a break. *)
Definition current_streak (thr : Z) (l : list Z) : nat := leading thr (rev l).

(** What the host's stores alone make of the state. *)
Definition host_stores (ins : list input) (s : ulp_state) : ulp_state :=
  fold_left (fun st i => host_apply (fst i) st) ins s.

(** The three variables the program reads and never writes. *)
Definition same_config (a b : ulp_state) : Prop :=
  ulp_nh3_threshold_adc a = ulp_nh3_threshold_adc b /\
  ulp_nh3_confirm_count a = ulp_nh3_confirm_count b /\
  ulp_stop_flag a = ulp_stop_flag b.

Definition keeps_threshold (i : input) : Prop := hw_threshold (fst i) = None.

(** What an iteration that ends in the delay of line 34 or line 51 leaves
    in the trace. *)
Definition sample_and_wait (i : input) : list event :=
  [EvRead (snd i); EvDelay SAMPLE_INTERVAL_US].

(** The inputs whose sensor read succeeds. *)
Definition read_succeeds (i : input) : bool := 0 <=? snd i.

Definition drop_failed_reads (ins : list input) : list input :=
  filter read_succeeds ins.

(** A failed read that comes with no host store. *)
Definition bare_failure (i : input) : Prop := snd i < 0 -> fst i = no_write.

(** A successful reading at or above [thr], with no host store. *)
Definition exceeds (thr : Z) (i : input) : Prop :=
  fst i = no_write /\ 0 <= snd i < 2 ^ 31 /\ thr <= snd i.

(** * Basic facts *)

(** Splits a conjunction of range facts without opening the ranges. *)
Ltac split_wf :=
  repeat match goal with
         | |- _ /\ _ => apply conj
         end.

Lemma u32_range (z : Z) : is_u32 (u32 z).
Proof. unfold is_u32, u32, u32_modulus. apply Z.mod_pos_bound. lia. Qed.

Lemma u32_small (z : Z) : is_u32 z -> u32 z = z.
Proof. unfold is_u32, u32. intros H. apply Z.mod_small. exact H. Qed.

Lemma u32_succ_max : u32 (u32_modulus - 1 + 1) = 0.
Proof. reflexivity. Qed.

Lemma u32_succ (z : Z) : 0 <= z < u32_modulus - 1 -> u32 (z + 1) = z + 1.
Proof. intros H. apply u32_small. unfold is_u32. lia. Qed.

Lemma u32_add_l (a b : Z) : u32 (u32 a + b) = u32 (a + b).
Proof. unfold u32. apply Zplus_mod_idemp_l. Qed.

Lemma stored_wf (old : Z) (w : option Z) : is_u32 old -> is_u32 (stored old w).
Proof. destruct w; simpl; intros H; [apply u32_range | exact H]. Qed.

Lemma host_apply_wf (h : host_write) (s : ulp_state) :
  wf_state s -> wf_state (host_apply h s).
Proof.
  unfold wf_state. intros (Ht & Hl & Ha & Hc & Hy & Hs). simpl.
  split_wf; try apply stored_wf; assumption.
Qed.

Lemma initial_state_wf : wf_state initial_state.
Proof. unfold wf_state, is_u32, u32_modulus. simpl. lia. Qed.

Lemma host_apply_no_write (s : ulp_state) : host_apply no_write s = s.
Proof. destruct s. reflexivity. Qed.

(** The four ways through the loop body. *)
Lemma loop_body_cases (raw : Z) (s : ulp_state) :
  (raw < 0 /\
   loop_body raw s = (s, [EvRead raw; EvDelay SAMPLE_INTERVAL_US], Running)) \/
  (0 <= raw /\ u32 raw < ulp_nh3_threshold_adc s /\
   loop_body raw s =
     (set_above_count 0
        (set_cycle_count (u32 (ulp_cycle_count s + 1)) (set_last_reading (u32 raw) s)),
      [EvRead raw; EvDelay SAMPLE_INTERVAL_US], Running)) \/
  (0 <= raw /\ ulp_nh3_threshold_adc s <= u32 raw /\
   u32 (ulp_nh3_above_count s + 1) < ulp_nh3_confirm_count s /\
   loop_body raw s =
     (set_above_count (u32 (ulp_nh3_above_count s + 1))
        (set_cycle_count (u32 (ulp_cycle_count s + 1)) (set_last_reading (u32 raw) s)),
      [EvRead raw; EvDelay SAMPLE_INTERVAL_US], Running)) \/
  (0 <= raw /\ ulp_nh3_threshold_adc s <= u32 raw /\
   ulp_nh3_confirm_count s <= u32 (ulp_nh3_above_count s + 1) /\
   loop_body raw s =
     (set_above_count (u32 (ulp_nh3_above_count s + 1))
        (set_cycle_count (u32 (ulp_cycle_count s + 1)) (set_last_reading (u32 raw) s)),
      [EvRead raw; EvWake; EvHalt], Halted)).
Proof.
  unfold loop_body.
  destruct (raw <? 0) eqn:Hneg.
  - left. apply Z.ltb_lt in Hneg. auto.
  - apply Z.ltb_ge in Hneg. right. cbn [set_last_reading set_cycle_count
      set_above_count ulp_nh3_threshold_adc ulp_nh3_above_count
      ulp_nh3_confirm_count ulp_cycle_count].
    destruct (ulp_nh3_threshold_adc s <=? u32 raw) eqn:Hthr.
    + apply Z.leb_le in Hthr. right.
      destruct (ulp_nh3_confirm_count s <=? u32 (ulp_nh3_above_count s + 1)) eqn:Hcf.
      * apply Z.leb_le in Hcf. right. auto.
      * apply Z.leb_gt in Hcf. left. auto.
    + apply Z.leb_gt in Hthr. left. auto.
Qed.

Lemma loop_body_wf (raw : Z) (s : ulp_state) :
  wf_state s -> wf_state (final_state (loop_body raw s)).
Proof.
  intros Hwf.
  destruct (loop_body_cases raw s) as [(_ & E) | [(_ & _ & E) | [(_ & _ & _ & E) | (_ & _ & _ & E)]]];
    rewrite E; unfold final_state; simpl; auto;
    destruct Hwf as (Ht & Hl & Ha & Hc & Hy & Hs);
    unfold wf_state; simpl; split_wf;
    solve [apply u32_range | assumption | unfold is_u32, u32_modulus; lia].
Qed.

Lemma loop_iter_wf (raw : Z) (s : ulp_state) :
  wf_state s -> wf_state (final_state (loop_iter raw s)).
Proof.
  intros Hwf. unfold loop_iter.
  destruct (ulp_stop_flag s =? 0); [apply loop_body_wf; exact Hwf | exact Hwf].
Qed.

(** Unfolding [main] by one input. *)
Lemma main_cons (h : host_write) (raw : Z) (rest : list input) (s : ulp_state) :
  main ((h, raw) :: rest) s =
  match loop_iter raw (host_apply h s) with
  | (s', evs, Running) =>
      (final_state (main rest s'), evs ++ trace (main rest s'), status (main rest s'))
  | (s', evs, Halted) => (s', evs, Halted)
  end.
Proof.
  simpl. destruct (loop_iter raw (host_apply h s)) as [[s' evs] [ | ]]; auto.
  destruct (main rest s') as [[s'' tr] fl]. reflexivity.
Qed.

(** A run against [a ++ b] is the run against [a], continued against [b]
    if the program is still running. *)
Lemma main_app (a b : list input) (s : ulp_state) :
  main (a ++ b) s =
  match status (main a s) with
  | Running =>
      (final_state (main b (final_state (main a s))),
       trace (main a s) ++ trace (main b (final_state (main a s))),
       status (main b (final_state (main a s))))
  | Halted => main a s
  end.
Proof.
  revert s. induction a as [ | [h raw] a IH]; intros s.
  - unfold final_state, trace, status. simpl.
    destruct (main b s) as [[s' tr] fl]. reflexivity.
  - rewrite <- app_comm_cons. rewrite !main_cons.
    destruct (loop_iter raw (host_apply h s)) as [[s' evs] [ | ]]; [ | reflexivity].
    rewrite IH. unfold final_state, trace, status. simpl.
    destruct (main a s') as [[s'' tr] [ | ]]; simpl; [ | reflexivity].
    rewrite app_assoc. reflexivity.
Qed.

Lemma main_wf (ins : list input) (s : ulp_state) :
  wf_state s -> wf_state (final_state (main ins s)).
Proof.
  revert s. induction ins as [ | [h raw] ins IH]; intros s Hwf; [exact Hwf | ].
  rewrite main_cons.
  pose proof (loop_iter_wf raw (host_apply h s) (host_apply_wf h s Hwf)) as Hit.
  destruct (loop_iter raw (host_apply h s)) as [[s' evs] [ | ]]; unfold final_state in *; simpl in *.
  - apply IH. exact Hit.
  - exact Hit.
Qed.

Lemma reads_app (a b : list event) : reads (a ++ b) = reads a ++ reads b.
Proof.
  induction a as [ | e a IH]; [reflexivity | ].
  destruct e; simpl; rewrite IH; reflexivity.
Qed.

Lemma successes_app (a b : list event) :
  successes (a ++ b) = successes a ++ successes b.
Proof. unfold successes. rewrite reads_app. apply filter_app. Qed.

(** The five ways through one iteration: the loop test fails, or one of
    the four ways through the body. *)
Lemma loop_iter_cases (raw : Z) (s : ulp_state) :
  (ulp_stop_flag s <> 0 /\ loop_iter raw s = (s, [EvHalt], Halted)) \/
  (ulp_stop_flag s = 0 /\ loop_iter raw s = loop_body raw s).
Proof.
  unfold loop_iter. destruct (ulp_stop_flag s =? 0) eqn:E.
  - right. apply Z.eqb_eq in E. auto.
  - left. apply Z.eqb_neq in E. auto.
Qed.

Lemma successes_read_delay (raw d : Z) :
  successes [EvRead raw; EvDelay d] = if 0 <=? raw then [raw] else [].
Proof. reflexivity. Qed.

Lemma successes_read_wake (raw : Z) :
  successes [EvRead raw; EvWake; EvHalt] = if 0 <=? raw then [raw] else [].
Proof. reflexivity. Qed.

Lemma nonneg_leb (raw : Z) : 0 <= raw -> (0 <=? raw) = true.
Proof. intros H. apply Z.leb_le. exact H. Qed.

Lemma neg_leb (raw : Z) : raw < 0 -> (0 <=? raw) = false.
Proof. intros H. apply Z.leb_gt. exact H. Qed.

Lemma last_cons_default (a d : Z) (l : list Z) : last (a :: l) d = last l a.
Proof.
  revert a d. induction l as [ | b l IH]; intros a d; [reflexivity | ].
  change (last (a :: b :: l) d) with (last (b :: l) d).
  rewrite !IH. reflexivity.
Qed.

(** * The cycle counter *)

Lemma main_cycle_count (ins : list input) :
  forall s : ulp_state,
    is_u32 (ulp_cycle_count s) ->
    ulp_cycle_count (final_state (main ins s)) =
    u32 (ulp_cycle_count s + Z.of_nat (List.length (successes (trace (main ins s))))).
Proof.
  induction ins as [ | [h raw] ins IH]; intros s Hc.
  - simpl. rewrite Z.add_0_r. symmetry. apply u32_small. exact Hc.
  - rewrite main_cons.
    assert (Hc1 : is_u32 (ulp_cycle_count (host_apply h s))) by exact Hc.
    change (ulp_cycle_count s) with (ulp_cycle_count (host_apply h s)).
    set (s1 := host_apply h s) in *.
    destruct (loop_iter_cases raw s1) as [(_ & E) | (_ & E)]; rewrite E.
    + simpl. rewrite Z.add_0_r. symmetry. apply u32_small. exact Hc1.
    + destruct (loop_body_cases raw s1)
        as [(Hr & B) | [(Hr & _ & B) | [(Hr & _ & _ & B) | (Hr & _ & _ & B)]]];
        rewrite B; cbn [final_state trace status fst snd].
      * rewrite successes_app, successes_read_delay, (neg_leb _ Hr).
        apply IH. exact Hc1.
      * rewrite successes_app, successes_read_delay, (nonneg_leb _ Hr).
        rewrite IH by apply u32_range.
        cbn [set_above_count set_cycle_count ulp_cycle_count app List.length].
        rewrite u32_add_l. f_equal. lia.
      * rewrite successes_app, successes_read_delay, (nonneg_leb _ Hr).
        rewrite IH by apply u32_range.
        cbn [set_above_count set_cycle_count ulp_cycle_count app List.length].
        rewrite u32_add_l. f_equal. lia.
      * rewrite successes_read_wake, (nonneg_leb _ Hr). reflexivity.
Qed.

(** C3: the cycle counter goes up by one, modulo 2^32, in an iteration
    whose sensor read succeeds, and keeps its value in an iteration whose
    read fails; over a whole run it has gone up by the number of successful
    reads. *)
Theorem cycle_count_once_per_successful_read
    (raw : Z) (s : ulp_state) (ins : list input) :
  is_u32 (ulp_cycle_count s) ->
  (0 <= raw ->
   ulp_cycle_count (final_state (loop_body raw s)) = u32 (ulp_cycle_count s + 1)) /\
  (raw < 0 ->
   ulp_cycle_count (final_state (loop_body raw s)) = ulp_cycle_count s) /\
  ulp_cycle_count (final_state (main ins s)) =
    u32 (ulp_cycle_count s + Z.of_nat (List.length (successes (trace (main ins s))))).
Proof.
  intros Hc. split; [ | split].
  - intros Hr.
    destruct (loop_body_cases raw s)
      as [(Hn & _) | [(_ & _ & B) | [(_ & _ & _ & B) | (_ & _ & _ & B)]]];
      [lia | rewrite B; reflexivity ..].
  - intros Hr.
    destruct (loop_body_cases raw s)
      as [(_ & B) | [(Hn & _) | [(Hn & _) | (Hn & _)]]];
      [rewrite B; reflexivity | lia ..].
  - apply main_cycle_count. exact Hc.
Qed.

Lemma cycle_count_once_per_successful_read_witness :
  is_u32 (ulp_cycle_count initial_state) /\
  ulp_cycle_count
    (final_state (main [(no_write, 1600); (no_write, -1); (no_write, 7)] initial_state)) = 2.
Proof.
  assert (Hc : is_u32 (ulp_cycle_count initial_state))
    by (unfold is_u32, u32_modulus; simpl; lia).
  split; [exact Hc | ].
  destruct (cycle_count_once_per_successful_read 0
              initial_state [(no_write, 1600); (no_write, -1); (no_write, 7)] Hc)
    as (_ & _ & H).
  rewrite H. reflexivity.
Defined.

(** * Read failures *)

(** C4: when the ADC driver returns a negative value the iteration does
    nothing but wait one sample interval: all six shared variables keep
    their values, the program goes on running, and the next iteration reads
    the sensor again. *)
Theorem read_failure_waits_and_retries
    (raw : Z) (s : ulp_state) (h' : host_write) (raw' : Z) (rest : list input) :
  raw < 0 ->
  loop_body raw s = (s, [EvRead raw; EvDelay SAMPLE_INTERVAL_US], Running) /\
  (ulp_stop_flag s = 0 ->
   main ((no_write, raw) :: rest) s =
     (final_state (main rest s),
      EvRead raw :: EvDelay SAMPLE_INTERVAL_US :: trace (main rest s),
      status (main rest s)) /\
   (ulp_stop_flag (host_apply h' s) = 0 ->
    exists tr,
      trace (main ((no_write, raw) :: (h', raw') :: rest) s) =
      EvRead raw :: EvDelay SAMPLE_INTERVAL_US :: EvRead raw' :: tr)).
Proof.
  intros Hr.
  assert (B : loop_body raw s = (s, [EvRead raw; EvDelay SAMPLE_INTERVAL_US], Running)).
  { unfold loop_body. apply Z.ltb_lt in Hr. rewrite Hr. reflexivity. }
  split; [exact B | ].
  intros Hs.
  assert (M : forall l, main ((no_write, raw) :: l) s =
                (final_state (main l s),
                 EvRead raw :: EvDelay SAMPLE_INTERVAL_US :: trace (main l s),
                 status (main l s))).
  { intros l. rewrite main_cons, host_apply_no_write.
    unfold loop_iter. rewrite Hs. simpl (0 =? 0). cbv iota. rewrite B. reflexivity. }
  split; [apply M | ].
  intros Hs'. rewrite M. cbn [trace fst snd]. rewrite main_cons.
  unfold loop_iter. rewrite Hs'. simpl (0 =? 0). cbv iota.
  destruct (loop_body_cases raw' (host_apply h' s))
    as [(_ & E) | [(_ & _ & E) | [(_ & _ & _ & E) | (_ & _ & _ & E)]]];
    rewrite E; cbn [fst snd app]; eexists; reflexivity.
Qed.

Lemma read_failure_waits_and_retries_witness :
  -1 < 0 /\
  loop_body (-1) initial_state =
    (initial_state, [EvRead (-1); EvDelay SAMPLE_INTERVAL_US], Running).
Proof.
  assert (Hr : -1 < 0) by lia.
  split; [exact Hr | ].
  exact (proj1 (read_failure_waits_and_retries (-1) initial_state no_write 0 [] Hr)).
Defined.

(** * The symbol table *)

(** C7: the export array holds six symbols, one for each of the six shared
    variables of the ULP program and no other, each the variable's name
    behind the prefix ulp_. *)
Theorem six_shared_variables_exported :
  petfilter_ulp_symbols = map host_symbol shared_variables /\
  List.length petfilter_ulp_symbols = 6%nat /\
  List.length shared_variables = 6%nat /\
  NoDup petfilter_ulp_symbols.
Proof.
  split; [reflexivity | ]. split; [reflexivity | ]. split; [reflexivity | ].
  assert (E : nodup string_dec petfilter_ulp_symbols = petfilter_ulp_symbols)
    by reflexivity.
  rewrite <- E. apply NoDup_nodup.
Qed.

(** * The last reading *)

Lemma main_last_reading (ins : list input) :
  forall s : ulp_state,
    Forall is_i32 (map snd ins) ->
    ulp_nh3_last_reading (final_state (main ins s)) =
      last (successes (trace (main ins s))) (ulp_nh3_last_reading s) /\
    (0 <= ulp_nh3_last_reading s < 2 ^ 31 ->
     0 <= ulp_nh3_last_reading (final_state (main ins s)) < 2 ^ 31).
Proof.
  induction ins as [ | [h raw] ins IH]; intros s Hin.
  - simpl. auto.
  - simpl map in Hin. apply Forall_cons_iff in Hin. destruct Hin as [Hraw Hin].
    unfold is_i32 in Hraw.
    rewrite main_cons.
    change (ulp_nh3_last_reading s) with (ulp_nh3_last_reading (host_apply h s)).
    set (s1 := host_apply h s) in *.
    assert (Hu : 0 <= raw -> u32 raw = raw).
    { intros Hr. apply u32_small. unfold is_u32, u32_modulus. lia. }
    destruct (loop_iter_cases raw s1) as [(_ & E) | (_ & E)]; rewrite E.
    + simpl. auto.
    + destruct (loop_body_cases raw s1)
        as [(Hr & B) | [(Hr & _ & B) | [(Hr & _ & _ & B) | (Hr & _ & _ & B)]]];
        try rewrite (Hu Hr) in B; rewrite B; cbn [final_state trace status fst snd].
      * rewrite successes_app, successes_read_delay, (neg_leb _ Hr).
        apply IH. exact Hin.
      * rewrite successes_app, successes_read_delay, (nonneg_leb _ Hr).
        cbn [app]. rewrite last_cons_default.
        match goal with
        | |- context [main ins ?s2] => destruct (IH s2 Hin) as [IH1 IH2]
        end.
        cbn [set_above_count set_cycle_count set_last_reading ulp_nh3_last_reading] in IH1, IH2.
        split; [exact IH1 | ]. intros _. apply IH2. lia.
      * rewrite successes_app, successes_read_delay, (nonneg_leb _ Hr).
        cbn [app]. rewrite last_cons_default.
        match goal with
        | |- context [main ins ?s2] => destruct (IH s2 Hin) as [IH1 IH2]
        end.
        cbn [set_above_count set_cycle_count set_last_reading ulp_nh3_last_reading] in IH1, IH2.
        split; [exact IH1 | ]. intros _. apply IH2. lia.
      * rewrite successes_read_wake, (nonneg_leb _ Hr).
        cbn [set_above_count set_cycle_count set_last_reading ulp_nh3_last_reading last].
        split; [reflexivity | lia].
Qed.

(** C10: in a run from a state whose last reading is the initial 0, the
    variable holds the latest successful sensor reading, or 0 while there
    has been none, and its value is below 2^31; failed reads do not show in
    it. *)
Theorem last_reading_is_latest_success (ins : list input) (s : ulp_state) :
  ulp_nh3_last_reading s = 0 ->
  Forall is_i32 (map snd ins) ->
  ulp_nh3_last_reading (final_state (main ins s)) =
    last (successes (trace (main ins s))) 0 /\
  0 <= ulp_nh3_last_reading (final_state (main ins s)) < 2 ^ 31.
Proof.
  intros H0 Hin. destruct (main_last_reading ins s Hin) as [H1 H2].
  rewrite H0 in H1, H2. split; [exact H1 | apply H2; lia].
Qed.

Lemma last_reading_is_latest_success_witness :
  ulp_nh3_last_reading initial_state = 0 /\
  Forall is_i32 (map snd [(no_write, 1200); (no_write, -1)]) /\
  ulp_nh3_last_reading
    (final_state (main [(no_write, 1200); (no_write, -1)] initial_state)) = 1200.
Proof.
  assert (H0 : ulp_nh3_last_reading initial_state = 0) by reflexivity.
  assert (Hin : Forall is_i32 (map snd [(no_write, 1200); (no_write, -1)])).
  { simpl. repeat constructor; unfold is_i32; lia. }
  split; [exact H0 | ]. split; [exact Hin | ].
  rewrite (proj1 (last_reading_is_latest_success _ initial_state H0 Hin)).
  reflexivity.
Defined.

(** * The consecutive-above counter *)

Lemma main_single (h : host_write) (raw : Z) (s : ulp_state) :
  main [(h, raw)] s = loop_iter raw (host_apply h s).
Proof.
  rewrite main_cons.
  destruct (loop_iter raw (host_apply h s)) as [[s' evs] [ | ]]; [ | reflexivity].
  simpl. rewrite app_nil_r. reflexivity.
Qed.

(** C2: an iteration whose reading is below the threshold leaves the
    counter at zero; a failed read leaves it as it was; it goes up, and then
    by one, only in an iteration whose reading is at or above the threshold.
    This holds of every iteration from every state, so also right after
    every below-threshold reading met in a run. *)
Theorem above_count_resets_below_threshold
    (raw : Z) (s : ulp_state) (pre : list input) (h : host_write) (s0 : ulp_state) :
  (0 <= raw -> u32 raw < ulp_nh3_threshold_adc s ->
   ulp_nh3_above_count (final_state (loop_body raw s)) = 0) /\
  (raw < 0 ->
   ulp_nh3_above_count (final_state (loop_body raw s)) = ulp_nh3_above_count s) /\
  (is_u32 (ulp_nh3_above_count s) ->
   ulp_nh3_above_count s < ulp_nh3_above_count (final_state (loop_body raw s)) ->
   0 <= raw /\ ulp_nh3_threshold_adc s <= u32 raw /\
   ulp_nh3_above_count (final_state (loop_body raw s)) = ulp_nh3_above_count s + 1) /\
  (status (main pre s0) = Running ->
   s = host_apply h (final_state (main pre s0)) ->
   ulp_stop_flag s = 0 ->
   0 <= raw -> u32 raw < ulp_nh3_threshold_adc s ->
   ulp_nh3_above_count (final_state (main (pre ++ [(h, raw)]) s0)) = 0).
Proof.
  assert (Hbelow : 0 <= raw -> u32 raw < ulp_nh3_threshold_adc s ->
                   ulp_nh3_above_count (final_state (loop_body raw s)) = 0).
  { intros Hr Hlt.
    destruct (loop_body_cases raw s)
      as [(Hn & _) | [(_ & _ & B) | [(_ & Hge & _) | (_ & Hge & _)]]];
      [lia | rewrite B; reflexivity | lia | lia]. }
  split; [exact Hbelow | ]. split; [ | split].
  - intros Hr.
    destruct (loop_body_cases raw s)
      as [(_ & B) | [(Hn & _) | [(Hn & _) | (Hn & _)]]];
      [rewrite B; reflexivity | lia ..].
  - intros Ha Hup. unfold is_u32 in Ha.
    destruct (loop_body_cases raw s)
      as [(_ & B) | [(_ & _ & B) | [(Hr & Hge & _ & B) | (Hr & Hge & _ & B)]]];
      rewrite B in Hup |- *; cbn [final_state fst set_above_count ulp_nh3_above_count] in Hup |- *;
      try lia.
    + destruct (Z.eq_dec (ulp_nh3_above_count s) (u32_modulus - 1)) as [Hmax | Hmax].
      * rewrite Hmax, u32_succ_max in Hup. lia.
      * rewrite u32_succ by lia. auto.
    + destruct (Z.eq_dec (ulp_nh3_above_count s) (u32_modulus - 1)) as [Hmax | Hmax].
      * rewrite Hmax, u32_succ_max in Hup. lia.
      * rewrite u32_succ by lia. auto.
  - intros Hrun Hs Hstop Hr Hlt.
    rewrite main_app, Hrun. cbn [final_state fst].
    rewrite main_single. fold (final_state (main pre s0)). rewrite <- Hs.
    unfold loop_iter. rewrite Hstop. simpl (0 =? 0). cbv iota.
    apply Hbelow; assumption.
Qed.

Lemma above_count_resets_below_threshold_witness :
  0 <= 900 /\ u32 900 < ulp_nh3_threshold_adc initial_state /\
  ulp_nh3_above_count
    (final_state (main [(no_write, 1600); (no_write, 1700)] initial_state)) = 2 /\
  ulp_nh3_above_count
    (final_state (main ([(no_write, 1600); (no_write, 1700)] ++ [(no_write, 900)])
                    initial_state)) = 0.
Proof.
  assert (Hr : 0 <= 900) by lia.
  assert (Hlt : u32 900 < ulp_nh3_threshold_adc initial_state) by reflexivity.
  split; [exact Hr | ]. split; [exact Hlt | ]. split; [reflexivity | ].
  exact (proj2 (proj2 (proj2
           (above_count_resets_below_threshold 900
              (host_apply no_write
                 (final_state (main [(no_write, 1600); (no_write, 1700)] initial_state)))
              [(no_write, 1600); (no_write, 1700)] no_write initial_state)))
           eq_refl eq_refl eq_refl Hr Hlt).
Defined.

(** * Monotonicity of the cycle counter *)

Lemma loop_body_cycle_count (raw : Z) (s : ulp_state) :
  ulp_cycle_count (final_state (loop_body raw s)) =
  if raw <? 0 then ulp_cycle_count s else u32 (ulp_cycle_count s + 1).
Proof.
  destruct (loop_body_cases raw s)
    as [(Hr & B) | [(Hr & _ & B) | [(Hr & _ & _ & B) | (Hr & _ & _ & B)]]];
    rewrite B; cbn [final_state fst set_above_count set_cycle_count ulp_cycle_count].
  - apply Z.ltb_lt in Hr. rewrite Hr. reflexivity.
  - apply Z.ltb_ge in Hr. rewrite Hr. reflexivity.
  - apply Z.ltb_ge in Hr. rewrite Hr. reflexivity.
  - apply Z.ltb_ge in Hr. rewrite Hr. reflexivity.
Qed.

Lemma loop_iter_cycle_count (raw : Z) (s : ulp_state) :
  ulp_cycle_count (final_state (loop_iter raw s)) =
  if (ulp_stop_flag s =? 0) && negb (raw <? 0)
  then u32 (ulp_cycle_count s + 1) else ulp_cycle_count s.
Proof.
  unfold loop_iter. destruct (ulp_stop_flag s =? 0); [ | reflexivity].
  rewrite loop_body_cycle_count. destruct (raw <? 0); reflexivity.
Qed.

(** Sensor readings of 0 under a positive threshold keep the program
    running and do nothing but count cycles. *)
Lemma zero_readings_run (n : nat) :
  forall s : ulp_state,
    ulp_stop_flag s = 0 ->
    0 < ulp_nh3_threshold_adc s ->
    status (main (zero_readings n) s) = Running /\
    u32 (ulp_cycle_count (final_state (main (zero_readings n) s))) =
      u32 (ulp_cycle_count s + Z.of_nat n) /\
    ulp_stop_flag (final_state (main (zero_readings n) s)) = 0 /\
    ulp_nh3_threshold_adc (final_state (main (zero_readings n) s)) =
      ulp_nh3_threshold_adc s.
Proof.
  induction n as [ | n IH]; intros s Hs Ht.
  - cbn [zero_readings repeat main status final_state fst snd Z.of_nat].
    rewrite Z.add_0_r. auto.
  - change (zero_readings (S n)) with ((no_write, 0) :: zero_readings n).
    rewrite main_cons, host_apply_no_write.
    unfold loop_iter. rewrite Hs. simpl (0 =? 0). cbv iota.
    destruct (loop_body_cases 0 s)
      as [(Hr & _) | [(_ & _ & B) | [(_ & Hge & _) | (_ & Hge & _)]]];
      [lia | | change (u32 0) with 0 in Hge; lia ..].
    rewrite B. cbn [final_state trace status fst snd].
    match goal with
    | |- context [main (zero_readings n) ?s2] =>
        destruct (IH s2 Hs Ht) as (I1 & I2 & I3 & I4)
    end.
    cbn [set_above_count set_cycle_count set_last_reading ulp_cycle_count] in I2.
    rewrite u32_add_l in I2.
    split; [exact I1 | ]. split; [ | split; [exact I3 | exact I4]].
    rewrite I2. f_equal. lia.
Qed.

(** Counterexample to C6 as stated: the 32-bit counter wraps.  The state
    reached from the initial one by 2^32 - 1 successful reads has the cycle
    count at its maximum, and the next successful read takes it down to 0. *)
Lemma cycle_count_decreases_at_wrap :
  let r := main (zero_readings (Z.to_nat (u32_modulus - 1))) initial_state in
  status r = Running /\
  wf_state (final_state r) /\
  ulp_cycle_count (final_state r) = u32_modulus - 1 /\
  ulp_cycle_count (final_state (loop_iter 0 (final_state r))) = 0 /\
  ~ ulp_cycle_count (final_state r) <=
    ulp_cycle_count (final_state (loop_iter 0 (final_state r))).
Proof.
  intros r.
  assert (Hwf : wf_state (final_state r)).
  { apply main_wf. unfold wf_state, is_u32, u32_modulus. simpl. lia. }
  destruct (zero_readings_run (Z.to_nat (u32_modulus - 1)) initial_state)
    as (Hrun & Hc & Hs & _); [reflexivity | reflexivity | ].
  fold r in Hrun, Hc, Hs. clearbody r.
  rewrite Z2Nat.id in Hc by (unfold u32_modulus; lia).
  rewrite u32_small in Hc by apply Hwf.
  change (u32 (ulp_cycle_count initial_state + (u32_modulus - 1)))
    with (u32_modulus - 1) in Hc.
  assert (Hnext : ulp_cycle_count (final_state (loop_iter 0 (final_state r))) = 0).
  { rewrite loop_iter_cycle_count, Hs, Hc. reflexivity. }
  split; [exact Hrun | ]. split; [exact Hwf | ]. split; [exact Hc | ].
  split; [exact Hnext | ]. rewrite Hnext, Hc. unfold u32_modulus. lia.
Qed.

(** C6, amended: an iteration leaves the cycle count as it is or replaces it
    by its successor modulo 2^32, so the count does not decrease across an
    iteration unless it wraps from 2^32 - 1 to 0, and does not decrease over
    a run that stays short of the wrap. *)
Theorem cycle_count_monotone_until_wrap
    (raw : Z) (s : ulp_state) (ins : list input) :
  is_u32 (ulp_cycle_count s) ->
  (ulp_cycle_count (final_state (loop_iter raw s)) = ulp_cycle_count s \/
   ulp_cycle_count (final_state (loop_iter raw s)) = u32 (ulp_cycle_count s + 1)) /\
  (ulp_cycle_count s < u32_modulus - 1 ->
   ulp_cycle_count s <= ulp_cycle_count (final_state (loop_iter raw s))) /\
  (ulp_cycle_count (final_state (loop_iter raw s)) < ulp_cycle_count s ->
   ulp_cycle_count s = u32_modulus - 1 /\
   ulp_cycle_count (final_state (loop_iter raw s)) = 0 /\ 0 <= raw) /\
  (ulp_cycle_count s + Z.of_nat (List.length (successes (trace (main ins s))))
     < u32_modulus ->
   ulp_cycle_count s <= ulp_cycle_count (final_state (main ins s))).
Proof.
  intros Hc. pose proof Hc as Hc'. unfold is_u32 in Hc'.
  rewrite loop_iter_cycle_count.
  destruct (Z.eq_dec (ulp_cycle_count s) (u32_modulus - 1)) as [Hmax | Hmax].
  - split; [ | split; [ | split]].
    + destruct ((ulp_stop_flag s =? 0) && negb (raw <? 0)); auto.
    + lia.
    + destruct ((ulp_stop_flag s =? 0) && negb (raw <? 0)) eqn:E; [ | lia].
      intros _. rewrite Hmax, u32_succ_max.
      apply andb_true_iff in E. destruct E as [_ E].
      apply negb_true_iff, Z.ltb_ge in E. auto.
    + intros Hlen. rewrite main_cycle_count by exact Hc.
      rewrite u32_small by (unfold is_u32; lia). lia.
  - rewrite u32_succ by lia.
    split; [ | split; [ | split]].
    + destruct ((ulp_stop_flag s =? 0) && negb (raw <? 0)); auto.
    + destruct ((ulp_stop_flag s =? 0) && negb (raw <? 0)); lia.
    + destruct ((ulp_stop_flag s =? 0) && negb (raw <? 0)); lia.
    + intros Hlen. rewrite main_cycle_count by exact Hc.
      rewrite u32_small by (unfold is_u32; lia). lia.
Qed.

Lemma cycle_count_monotone_until_wrap_witness :
  is_u32 (ulp_cycle_count initial_state) /\
  ulp_cycle_count initial_state <=
  ulp_cycle_count (final_state (main [(no_write, 12); (no_write, -1)] initial_state)).
Proof.
  assert (Hc : is_u32 (ulp_cycle_count initial_state))
    by (unfold is_u32, u32_modulus; simpl; lia).
  split; [exact Hc | ].
  apply (proj2 (proj2 (proj2
           (cycle_count_monotone_until_wrap 0 initial_state
              [(no_write, 12); (no_write, -1)] Hc)))).
  unfold u32_modulus. simpl. lia.
Defined.

(** * The counter stays below the confirm count *)

Lemma main_above_below_confirm (ins : list input) :
  forall s : ulp_state,
    0 <= ulp_nh3_above_count s < ulp_nh3_confirm_count s ->
    Forall keeps_confirm ins ->
    status (main ins s) = Running ->
    0 <= ulp_nh3_above_count (final_state (main ins s))
      < ulp_nh3_confirm_count (final_state (main ins s)) /\
    ulp_nh3_confirm_count (final_state (main ins s)) = ulp_nh3_confirm_count s.
Proof.
  induction ins as [ | [h raw] ins IH]; intros s Hinv Hk Hrun.
  - simpl. auto.
  - apply Forall_cons_iff in Hk. destruct Hk as [Hk Hks].
    unfold keeps_confirm in Hk. cbn [fst] in Hk.
    assert (Hcf : ulp_nh3_confirm_count (host_apply h s) = ulp_nh3_confirm_count s).
    { simpl. rewrite Hk. reflexivity. }
    assert (Hab : ulp_nh3_above_count (host_apply h s) = ulp_nh3_above_count s)
      by reflexivity.
    rewrite main_cons in Hrun |- *.
    rewrite <- Hcf. rewrite <- Hcf, <- Hab in Hinv.
    set (s1 := host_apply h s) in *. clearbody s1.
    destruct (loop_iter_cases raw s1) as [(_ & E) | (_ & E)]; rewrite E in Hrun |- *.
    + discriminate Hrun.
    + destruct (loop_body_cases raw s1)
        as [(Hr & B) | [(Hr & _ & B) | [(Hr & _ & Hlt & B) | (Hr & _ & _ & B)]]];
        rewrite B in Hrun |- *; cbn [final_state trace status fst snd] in Hrun |- *.
      * apply IH; assumption.
      * match goal with
        | |- context [main ins ?s2] => destruct (IH s2) as [I1 I2]; try assumption
        end.
        { simpl. lia. }
        split; [exact I1 | exact I2].
      * match goal with
        | |- context [main ins ?s2] => destruct (IH s2) as [I1 I2]; try assumption
        end.
        { simpl. pose proof (u32_range (ulp_nh3_above_count s1 + 1)) as Hu.
          unfold is_u32 in Hu. lia. }
        split; [exact I1 | exact I2].
      * discriminate Hrun.
Qed.

(** C8: with a confirm count of at least 1 that the host does not rewrite
    during the run, and the counter starting from 0, the counter is below
    the confirm count whenever control is at the loop test; the iteration
    that takes it up to the confirm count halts. *)
Theorem above_count_below_confirm_count (ins : list input) (s : ulp_state) :
  1 <= ulp_nh3_confirm_count s ->
  ulp_nh3_above_count s = 0 ->
  Forall keeps_confirm ins ->
  status (main ins s) = Running ->
  0 <= ulp_nh3_above_count (final_state (main ins s))
    < ulp_nh3_confirm_count (final_state (main ins s)) /\
  ulp_nh3_confirm_count (final_state (main ins s)) = ulp_nh3_confirm_count s.
Proof.
  intros Hcf Ha Hk Hrun. apply main_above_below_confirm; try assumption. lia.
Qed.

Lemma above_count_below_confirm_count_witness :
  1 <= ulp_nh3_confirm_count initial_state /\
  ulp_nh3_above_count initial_state = 0 /\
  Forall keeps_confirm [(no_write, 1600); (no_write, 1700)] /\
  status (main [(no_write, 1600); (no_write, 1700)] initial_state) = Running /\
  0 <= ulp_nh3_above_count
         (final_state (main [(no_write, 1600); (no_write, 1700)] initial_state)) < 3.
Proof.
  assert (Hcf : 1 <= ulp_nh3_confirm_count initial_state) by (simpl; lia).
  assert (Ha : ulp_nh3_above_count initial_state = 0) by reflexivity.
  assert (Hk : Forall keeps_confirm [(no_write, 1600); (no_write, 1700)])
    by (repeat constructor).
  assert (Hrun : status (main [(no_write, 1600); (no_write, 1700)] initial_state) = Running)
    by reflexivity.
  split; [exact Hcf | ]. split; [exact Ha | ]. split; [exact Hk | ]. split; [exact Hrun | ].
  exact (proj1 (above_count_below_confirm_count _ initial_state Hcf Ha Hk Hrun)).
Defined.

(** * When the wake-up fires *)

Lemma not_wake_read_delay (raw d : Z) (tr : list event) :
  In EvWake ([EvRead raw; EvDelay d] ++ tr) -> In EvWake tr.
Proof.
  simpl. intros [H | [H | H]]; [discriminate H | discriminate H | exact H].
Qed.

(** The step of [main_wake_last] for an iteration that ends in the delay:
    the wake-up lies in the rest of the run, where [IH] finds it. *)
Ltac wake_after_delay IH Hw raw :=
  apply not_wake_read_delay in Hw;
  match type of Hw with
  | context [main _ ?s2] =>
      let Hh := fresh "Hh" in
      let tr := fresh "tr" in
      let r := fresh "r" in
      let Htr := fresh "Htr" in
      let Hnw := fresh "Hnw" in
      let Hrest := fresh "Hrest" in
      destruct (IH s2 Hw) as (Hh & tr & r & Htr & Hnw & Hrest);
      split; [exact Hh | ];
      exists ([EvRead raw; EvDelay SAMPLE_INTERVAL_US] ++ tr), r;
      rewrite Htr, app_assoc; split; [reflexivity | ];
      split; [intros Hin; apply not_wake_read_delay in Hin; exact (Hnw Hin)
             | exact Hrest]
  end.

(** A wake-up is the last thing but the halt in a trace, and comes right
    after a successful reading at or above the threshold. *)
Lemma main_wake_last (ins : list input) :
  forall s : ulp_state,
    In EvWake (trace (main ins s)) ->
    status (main ins s) = Halted /\
    exists tr raw,
      trace (main ins s) = tr ++ [EvRead raw; EvWake; EvHalt] /\
      ~ In EvWake tr /\ 0 <= raw /\
      ulp_nh3_threshold_adc (final_state (main ins s)) <= u32 raw /\
      ulp_nh3_last_reading (final_state (main ins s)) = u32 raw.
Proof.
  induction ins as [ | [h raw] ins IH]; intros s Hw.
  - simpl in Hw. contradiction.
  - rewrite main_cons in Hw |- *.
    set (s1 := host_apply h s) in *. clearbody s1.
    destruct (loop_iter_cases raw s1) as [(_ & E) | (_ & E)]; rewrite E in Hw |- *.
    + simpl in Hw. destruct Hw as [Hw | Hw]; [discriminate Hw | contradiction].
    + destruct (loop_body_cases raw s1)
        as [(Hr & B) | [(Hr & _ & B) | [(Hr & _ & _ & B) | (Hr & Hge & _ & B)]]];
        rewrite B in Hw |- *; cbn [final_state trace status fst snd] in Hw |- *.
      * wake_after_delay IH Hw raw.
      * wake_after_delay IH Hw raw.
      * wake_after_delay IH Hw raw.
      * split; [reflexivity | ].
        exists [], raw. simpl. repeat split; auto.
Qed.

(** From a well-formed state with the counter short of its maximum, the
    counter never comes to its maximum at the loop test: it goes up only
    while it stays below the confirm count. *)
Lemma main_above_short_of_max (ins : list input) :
  forall s : ulp_state,
    wf_state s ->
    ulp_nh3_above_count s <= u32_modulus - 2 ->
    status (main ins s) = Running ->
    ulp_nh3_above_count (final_state (main ins s)) <= u32_modulus - 2.
Proof.
  induction ins as [ | [h raw] ins IH]; intros s Hwf Ha Hrun.
  - exact Ha.
  - rewrite main_cons in Hrun |- *.
    apply (host_apply_wf h) in Hwf.
    change (ulp_nh3_above_count s) with (ulp_nh3_above_count (host_apply h s)) in Ha.
    set (s1 := host_apply h s) in *. clearbody s1.
    pose proof (loop_body_wf raw s1 Hwf) as Hwf'.
    destruct (loop_iter_cases raw s1) as [(_ & E) | (_ & E)]; rewrite E in Hrun |- *.
    + discriminate Hrun.
    + destruct (loop_body_cases raw s1)
        as [(Hr & B) | [(Hr & _ & B) | [(Hr & _ & Hlt & B) | (Hr & _ & _ & B)]]];
        rewrite B in Hrun, Hwf' |- *;
        cbn [final_state trace status fst snd] in Hrun, Hwf' |- *.
      * apply IH; assumption.
      * apply IH; [exact Hwf' | | exact Hrun]. unfold u32_modulus. simpl. lia.
      * apply IH; [exact Hwf' | | exact Hrun]. simpl.
        destruct Hwf as (_ & _ & _ & Hcf & _). unfold is_u32, u32_modulus in *. lia.
      * discriminate Hrun.
Qed.

(** Failed reads, and readings below the threshold under a confirm count of
    at most 1, leave the trigger armed: the next increment of the counter
    reaches the confirm count. *)
Lemma quiet_stretch (thr cf : Z) (mid : list input) :
  forall s : ulp_state,
    ulp_nh3_threshold_adc s = thr ->
    ulp_nh3_confirm_count s = cf ->
    ulp_stop_flag s = 0 ->
    cf <= ulp_nh3_above_count s + 1 ->
    0 <= ulp_nh3_above_count s <= u32_modulus - 2 ->
    Forall (quiet_input thr cf) mid ->
    status (main mid s) = Running /\
    ~ In EvWake (trace (main mid s)) /\
    ulp_nh3_threshold_adc (final_state (main mid s)) = thr /\
    ulp_nh3_confirm_count (final_state (main mid s)) = cf /\
    ulp_stop_flag (final_state (main mid s)) = 0 /\
    cf <= ulp_nh3_above_count (final_state (main mid s)) + 1 /\
    0 <= ulp_nh3_above_count (final_state (main mid s)) <= u32_modulus - 2.
Proof.
  induction mid as [ | [h raw] mid IH]; intros s Ht Hc Hs Hge Ha Hq.
  - cbn [main status trace final_state fst snd In]. tauto.
  - apply Forall_cons_iff in Hq. destruct Hq as [[Hh Hraw] Hq].
    cbn [fst snd] in Hh, Hraw. subst h.
    rewrite main_cons, host_apply_no_write.
    unfold loop_iter. rewrite Hs. simpl (0 =? 0). cbv iota.
    destruct (loop_body_cases raw s)
      as [(Hr & B) | [(Hr & Hlt & B) | [(Hr & Hthr & _ & B) | (Hr & Hthr & _ & B)]]];
      rewrite B; cbn [final_state trace status fst snd].
    + destruct (IH s Ht Hc Hs Hge Ha Hq) as (I1 & I2 & I3).
      split; [exact I1 | ]. split; [ | exact I3].
      intros Hin. apply not_wake_read_delay in Hin. exact (I2 Hin).
    + destruct Hraw as [Hneg | (Hsmall & _ & _)]; [lia | ].
      match goal with
      | |- context [main mid ?s2] =>
          destruct (IH s2) as (I1 & I2 & I3);
          [exact Ht | exact Hc | exact Hs | simpl; lia
          | simpl; unfold u32_modulus; lia | exact Hq | ]
      end.
      split; [exact I1 | ]. split; [ | exact I3].
      intros Hin. apply not_wake_read_delay in Hin. exact (I2 Hin).
    + destruct Hraw as [Hneg | (_ & _ & Hlt)]; lia.
    + destruct Hraw as [Hneg | (_ & _ & Hlt)]; lia.
Qed.

(** Counterexample to C9 as stated: the host lowers the confirm count to 2
    while the counter stands at 2; a reading of 900 then resets the counter,
    and the next successful reading at or above the threshold, 1600, takes
    it to 1 only: no wake-up, and the program goes on running. *)
Lemma lowered_confirm_count_disarmed_by_low_reading :
  let s0 := final_state (main [(no_write, 1600); (no_write, 1700)] initial_state) in
  let s := host_apply (lower_confirm 2) s0 in
  let r := main [(no_write, 900); (no_write, 1600)] s in
  status (main [(no_write, 1600); (no_write, 1700)] initial_state) = Running /\
  ulp_nh3_above_count s0 = 2 /\
  ulp_nh3_confirm_count s <= ulp_nh3_above_count s /\
  ulp_stop_flag s = 0 /\
  ulp_nh3_threshold_adc s <= u32 1600 /\
  successes (trace r) = [900; 1600] /\
  status r = Running /\
  ulp_nh3_above_count (final_state r) = 1 /\
  ~ In EvWake (trace r) /\
  ~ In EvWake
      (trace (main [(no_write, 1600); (no_write, 1700);
                    (lower_confirm 2, 900); (no_write, 1600)] initial_state)).
Proof.
  cbv zeta.
  split; [reflexivity | ]. split; [reflexivity | ].
  split; [simpl; lia | ]. split; [reflexivity | ].
  split; [simpl; discriminate | ]. split; [reflexivity | ].
  split; [reflexivity | ]. split; [reflexivity | ].
  split; simpl; intuition discriminate.
Qed.

(** C9, amended: once the confirm count is at or below the counter, a
    confirm count of zero included, the next successful reading at or above
    the threshold fires the wake-up and halts the program, provided that no
    successful reading below the threshold comes in between or that the
    confirm count is at most 1; failed reads in between change nothing to
    that.  And in no run does a wake-up come otherwise than right after a
    successful reading at or above the threshold. *)
Theorem wake_on_next_reading_at_or_above
    (pre : list input) (s0 : ulp_state) (h : host_write) (mid : list input)
    (raw : Z) (ins' : list input) (s' : ulp_state) :
  wf_state s0 ->
  ulp_nh3_above_count s0 = 0 ->
  status (main pre s0) = Running ->
  let s := host_apply h (final_state (main pre s0)) in
  ulp_nh3_confirm_count s <= ulp_nh3_above_count s ->
  ulp_stop_flag s = 0 ->
  Forall (quiet_input (ulp_nh3_threshold_adc s) (ulp_nh3_confirm_count s)) mid ->
  0 <= raw ->
  ulp_nh3_threshold_adc s <= u32 raw ->
  (status (main (mid ++ [(no_write, raw)]) s) = Halted /\
   exists tr,
     trace (main (mid ++ [(no_write, raw)]) s) = tr ++ [EvRead raw; EvWake; EvHalt] /\
     ~ In EvWake tr) /\
  (In EvWake (trace (main ins' s')) ->
   exists tr r,
     trace (main ins' s') = tr ++ [EvRead r; EvWake; EvHalt] /\
     ~ In EvWake tr /\ 0 <= r /\
     ulp_nh3_threshold_adc (final_state (main ins' s')) <= u32 r).
Proof.
  intros Hwf Ha0 Hrun s Hcf Hstop Hq Hr Hthr.
  split.
  - assert (Hmax : ulp_nh3_above_count s <= u32_modulus - 2).
    { apply (main_above_short_of_max pre s0 Hwf); [ | exact Hrun].
      rewrite Ha0. unfold u32_modulus. lia. }
    assert (Hnn : 0 <= ulp_nh3_above_count s).
    { pose proof (main_wf pre s0 Hwf) as (_ & _ & Hab & _). apply Hab. }
    assert (Harmed : ulp_nh3_confirm_count s <= ulp_nh3_above_count s + 1) by lia.
    destruct (quiet_stretch _ _ mid s eq_refl eq_refl Hstop Harmed (conj Hnn Hmax) Hq)
      as (I1 & I2 & I3 & I4 & I5 & I6 & I7).
    rewrite main_app, I1. cbn [status trace fst snd].
    rewrite main_single, host_apply_no_write.
    unfold loop_iter. rewrite I5. simpl (0 =? 0). cbv iota.
    destruct (loop_body_cases raw (final_state (main mid s)))
      as [(Hn & _) | [(_ & Hlt & _) | [(_ & _ & Hlt & _) | (_ & _ & _ & B)]]];
      [lia | lia | rewrite u32_succ in Hlt by lia; lia | ].
    rewrite B. cbn [fst snd]. split; [reflexivity | ].
    exists (trace (main mid s)). split; [reflexivity | exact I2].
  - intros Hw. destruct (main_wake_last ins' s' Hw) as (_ & tr & r & E & Hnw & Hr' & Ht & _).
    exists tr, r. auto.
Qed.

Lemma wake_on_next_reading_at_or_above_witness :
  status (main [(no_write, 1600); (no_write, 1700)] initial_state) = Running /\
  Forall
    (quiet_input
       (ulp_nh3_threshold_adc
          (host_apply (lower_confirm 1)
             (final_state (main [(no_write, 1600); (no_write, 1700)] initial_state))))
       (ulp_nh3_confirm_count
          (host_apply (lower_confirm 1)
             (final_state (main [(no_write, 1600); (no_write, 1700)] initial_state)))))
    [(no_write, -1); (no_write, 900)] /\
  exists tr,
  trace (main ([(no_write, -1); (no_write, 900)] ++ [(no_write, 1500)])
           (host_apply (lower_confirm 1)
              (final_state (main [(no_write, 1600); (no_write, 1700)] initial_state)))) =
  tr ++ [EvRead 1500; EvWake; EvHalt].
Proof.
  assert (Hrun : status (main [(no_write, 1600); (no_write, 1700)] initial_state) = Running)
    by reflexivity.
  split; [exact Hrun | ].
  pose proof (wake_on_next_reading_at_or_above
                [(no_write, 1600); (no_write, 1700)] initial_state
                (lower_confirm 1)
                [(no_write, -1); (no_write, 900)] 1500 [] initial_state
                initial_state_wf eq_refl Hrun) as H.
  cbv zeta in H.
  assert (Hcf : ulp_nh3_confirm_count
                  (host_apply (lower_confirm 1)
                     (final_state (main [(no_write, 1600); (no_write, 1700)] initial_state)))
                <= ulp_nh3_above_count
                  (host_apply (lower_confirm 1)
                     (final_state (main [(no_write, 1600); (no_write, 1700)] initial_state))))
    by (vm_compute; discriminate).
  specialize (H Hcf eq_refl).
  assert (Hq : Forall
            (quiet_input
               (ulp_nh3_threshold_adc
                  (host_apply (lower_confirm 1)
                     (final_state (main [(no_write, 1600); (no_write, 1700)] initial_state))))
               (ulp_nh3_confirm_count
                  (host_apply (lower_confirm 1)
                     (final_state (main [(no_write, 1600); (no_write, 1700)] initial_state)))))
            [(no_write, -1); (no_write, 900)]).
  { constructor; [ | constructor; [ | constructor]].
    - split; [reflexivity | left; reflexivity].
    - split; [reflexivity | right].
      cbn [snd]. split; [ | split]; vm_compute; (reflexivity || discriminate). }
  split; [exact Hq | ].
  assert (Hr : 0 <= 1500) by lia.
  assert (Hthr : ulp_nh3_threshold_adc
                   (host_apply (lower_confirm 1)
                      (final_state (main [(no_write, 1600); (no_write, 1700)] initial_state)))
                 <= u32 1500) by (vm_compute; discriminate).
  destruct (H Hq Hr Hthr) as [(_ & tr & E & _) _].
  exists tr. exact E.
Defined.

(** * Streaks *)

Section Streaks.

Variable thr : Z.

Lemma window_le (n : nat) :
  forall (m : nat) (l : list Z),
    (m <= n)%nat -> window n thr l = true -> window m thr l = true.
Proof.
  induction n as [ | n IH]; intros m l Hle Hw.
  - replace m with O by lia. reflexivity.
  - destruct m as [ | m]; [reflexivity | ].
    destruct l as [ | raw l]; [discriminate Hw | ].
    cbn [window] in Hw |- *. apply andb_true_iff in Hw. destruct Hw as [Hr Hw].
    rewrite Hr. cbn [andb]. apply (IH m l); [lia | exact Hw].
Qed.

Lemma window_has_streak (n : nat) (l : list Z) :
  window n thr l = true -> has_streak n thr l = true.
Proof. intros Hw. destruct l; cbn [has_streak]; rewrite Hw; reflexivity. Qed.

Lemma window_nil (n : nat) : (1 <= n)%nat -> window n thr [] = false.
Proof. destruct n; [lia | reflexivity]. Qed.

Lemma has_streak_nil (n : nat) : (1 <= n)%nat -> has_streak n thr [] = false.
Proof. intros Hn. cbn [has_streak]. rewrite window_nil by exact Hn. reflexivity. Qed.

Lemma window_or_streak (n : nat) (l : list Z) :
  window n thr l || has_streak n thr l = has_streak n thr l.
Proof.
  destruct (window n thr l) eqn:Hw; [ | reflexivity].
  rewrite (window_has_streak _ _ Hw). reflexivity.
Qed.

(** [window] and [has_streak] say what they are meant to say. *)
Lemma window_spec (n : nat) :
  forall l : list Z,
    window n thr l = true <->
    exists blk post,
      l = blk ++ post /\ List.length blk = n /\ Forall (fun raw => thr <= raw) blk.
Proof.
  induction n as [ | n IH]; intros l.
  - split; [ | reflexivity]. intros _. exists [], l. auto.
  - destruct l as [ | raw l]; cbn [window].
    + split; [discriminate | ]. intros (blk & post & E & Hlen & _).
      destruct blk; [discriminate Hlen | discriminate E].
    + rewrite andb_true_iff, IH. unfold at_or_above. rewrite Z.leb_le. split.
      * intros (Hr & blk & post & E & Hlen & Hall).
        exists (raw :: blk), post. subst l. simpl. auto.
      * intros (blk & post & E & Hlen & Hall).
        destruct blk as [ | b blk]; [discriminate Hlen | ].
        injection E as -> ->. injection Hlen as Hlen.
        apply Forall_cons_iff in Hall. destruct Hall as [Hb Hall].
        split; [exact Hb | ]. exists blk, post. auto.
Qed.

Lemma has_streak_spec (n : nat) (l : list Z) :
  has_streak n thr l = true <->
  exists pre blk post,
    l = pre ++ blk ++ post /\ List.length blk = n /\ Forall (fun raw => thr <= raw) blk.
Proof.
  induction l as [ | raw l IH].
  - cbn [has_streak]. rewrite orb_false_r, window_spec. split.
    + intros (blk & post & E & H). exists [], blk, post. auto.
    + intros (pre & blk & post & E & H).
      destruct pre; [ | discriminate E]. exists blk, post. auto.
  - cbn [has_streak]. rewrite orb_true_iff, IH, window_spec. split.
    + intros [(blk & post & E & H) | (pre & blk & post & E & H)].
      * exists [], blk, post. auto.
      * exists (raw :: pre), blk, post. subst l. auto.
    + intros (pre & blk & post & E & H). destruct pre as [ | p pre].
      * left. exists blk, post. auto.
      * right. injection E as -> ->. exists pre, blk, post. auto.
Qed.

End Streaks.

(** * The wake-up and the streak that confirms it *)

Lemma in_wake_read_delay (raw d : Z) (tr : list event) :
  In EvWake ([EvRead raw; EvDelay d] ++ tr) <-> In EvWake tr.
Proof.
  split; [apply not_wake_read_delay | ]. intros H. simpl. auto.
Qed.

(** With the counter at [k] below the number [n] of readings needed, the
    wake-up fires in the readings to come iff they either begin with
    [n - k] readings at or above the threshold or hold [n] such readings
    in a row further on. *)
Lemma main_wake_iff_streak (ins : list input) :
  forall s : ulp_state,
    wf_state s ->
    Forall keeps_config ins ->
    Forall is_i32 (map snd ins) ->
    0 <= ulp_nh3_above_count s < Z.max 1 (ulp_nh3_confirm_count s) ->
    (In EvWake (trace (main ins s)) <->
     window (Z.to_nat (Z.max 1 (ulp_nh3_confirm_count s) - ulp_nh3_above_count s))
       (ulp_nh3_threshold_adc s) (successes (trace (main ins s)))
     || has_streak (readings_needed s) (ulp_nh3_threshold_adc s)
          (successes (trace (main ins s))) = true).
Proof.
  induction ins as [ | [h raw] ins IH]; intros s Hwf Hk Hin Hinv.
  - cbn [main trace fst snd successes reads filter In].
    rewrite window_nil by lia. unfold readings_needed.
    rewrite has_streak_nil by lia. simpl. split; [contradiction | discriminate].
  - apply Forall_cons_iff in Hk. destruct Hk as [[Hkt Hkc] Hk]. cbn [fst] in Hkt, Hkc.
    simpl map in Hin. apply Forall_cons_iff in Hin. destruct Hin as [Hraw Hin].
    unfold is_i32 in Hraw.
    assert (Et : ulp_nh3_threshold_adc (host_apply h s) = ulp_nh3_threshold_adc s)
      by (simpl; rewrite Hkt; reflexivity).
    assert (Ec : ulp_nh3_confirm_count (host_apply h s) = ulp_nh3_confirm_count s)
      by (simpl; rewrite Hkc; reflexivity).
    assert (Ea : ulp_nh3_above_count (host_apply h s) = ulp_nh3_above_count s)
      by reflexivity.
    apply (host_apply_wf h) in Hwf.
    rewrite main_cons. unfold readings_needed in *.
    rewrite <- Et, <- Ec, <- Ea. rewrite <- Ec, <- Ea in Hinv.
    set (s1 := host_apply h s) in *. clearbody s1. clear Et Ec Ea.
    pose proof (loop_body_wf raw s1 Hwf) as Hwf'.
    assert (Hcf : ulp_nh3_confirm_count s1 < u32_modulus) by apply Hwf.
    assert (HM : 2 <= u32_modulus) by (unfold u32_modulus; lia).
    assert (Hu : 0 <= raw -> u32 raw = raw).
    { intros Hr. apply u32_small. unfold is_u32, u32_modulus. lia. }
    set (N := Z.max 1 (ulp_nh3_confirm_count s1)) in *.
    set (k := ulp_nh3_above_count s1) in *.
    set (thr := ulp_nh3_threshold_adc s1) in *.
    destruct (loop_iter_cases raw s1) as [(_ & E) | (_ & E)]; rewrite E.
    + cbn [trace fst snd successes reads filter].
      rewrite window_nil by lia. rewrite has_streak_nil by lia. simpl.
      split; [intros [H | H]; [discriminate H | contradiction] | discriminate].
    + destruct (loop_body_cases raw s1)
        as [(Hr & B) | [(Hr & Hlt & B) | [(Hr & Hge & Hlt & B) | (Hr & Hge & Hle & B)]]];
        try rewrite (Hu Hr) in *; fold k thr in B, Hwf'; try fold thr in Hlt;
        try fold thr in Hge; try fold k in Hlt; try fold k in Hle;
        rewrite B in Hwf' |- *; cbn [final_state trace status fst snd] in Hwf' |- *.
      * rewrite in_wake_read_delay, successes_app, successes_read_delay, (neg_leb _ Hr).
        cbn [app]. apply (IH s1 Hwf Hk Hin Hinv).
      * rewrite in_wake_read_delay, successes_app, successes_read_delay, (nonneg_leb _ Hr).
        cbn [app].
        match goal with
        | |- context [main ins ?s2] => pose proof (IH s2 Hwf' Hk Hin) as IH'
        end.
        cbn [set_above_count set_cycle_count set_last_reading ulp_nh3_above_count
             ulp_nh3_confirm_count ulp_nh3_threshold_adc] in IH'.
        fold N thr in IH'. rewrite IH' by lia. clear IH'.
        rewrite Z.sub_0_r, window_or_streak.
        replace (Z.to_nat (N - k)) with (S (Z.to_nat (N - (k + 1)))) by lia.
        cbn [window has_streak].
        replace (Z.to_nat N) with (S (Z.to_nat (N - 1))) at 2 by lia.
        cbn [window]. unfold at_or_above.
        apply Z.leb_gt in Hlt. rewrite Hlt. cbn [andb orb]. reflexivity.
      * rewrite in_wake_read_delay, successes_app, successes_read_delay, (nonneg_leb _ Hr).
        cbn [app].
        assert (Hk1 : u32 (k + 1) = k + 1) by (apply u32_succ; lia).
        rewrite Hk1 in *.
        match goal with
        | |- context [main ins ?s2] => pose proof (IH s2 Hwf' Hk Hin) as IH'
        end.
        cbn [set_above_count set_cycle_count set_last_reading ulp_nh3_above_count
             ulp_nh3_confirm_count ulp_nh3_threshold_adc] in IH'.
        fold N thr in IH'. rewrite IH' by lia. clear IH'.
        replace (Z.to_nat (N - k)) with (S (Z.to_nat (N - (k + 1)))) by lia.
        cbn [window has_streak].
        replace (Z.to_nat N) with (S (Z.to_nat (N - 1))) at 2 by lia.
        cbn [window]. unfold at_or_above.
        apply Z.leb_le in Hge. rewrite Hge. cbn [andb].
        match goal with
        | |- context [main ins ?s2] =>
            generalize (successes (trace (main ins s2))); intros L
        end.
        destruct (window (Z.to_nat (N - 1)) thr L) eqn:Hw.
        -- rewrite (window_le thr (Z.to_nat (N - 1)) (Z.to_nat (N - (k + 1))) L) by (lia || exact Hw).
           simpl. tauto.
        -- cbn [orb]. reflexivity.
      * rewrite successes_read_wake, (nonneg_leb _ Hr).
        assert (Hk1 : u32 (k + 1) = k + 1) by (apply u32_succ; lia).
        rewrite Hk1 in *.
        replace (Z.to_nat (N - k)) with 1%nat by lia.
        cbn [window]. unfold at_or_above.
        apply Z.leb_le in Hge. rewrite Hge. simpl. tauto.
Qed.

(** Counterexample to C1 as stated: a confirm count of zero.  Zero
    consecutive readings at or above the threshold have occurred in any
    run, yet the program does not wake the host on a reading below the
    threshold. *)
Lemma confirm_zero_wakes_on_no_streak :
  let s := configured 0 in
  let r := main [(no_write, 100)] s in
  wf_state s /\
  ulp_nh3_above_count s = 0 /\
  ulp_nh3_confirm_count s = 0 /\
  successes (trace r) = [100] /\
  has_streak (Z.to_nat (ulp_nh3_confirm_count s)) (ulp_nh3_threshold_adc s)
    (successes (trace r)) = true /\
  ~ In EvWake (trace r) /\
  ~ (In EvWake (trace r) <->
     has_streak (Z.to_nat (ulp_nh3_confirm_count s)) (ulp_nh3_threshold_adc s)
       (successes (trace r)) = true).
Proof.
  assert (Hnw : ~ In EvWake (trace (main [(no_write, 100)] (configured 0)))).
  { simpl. intros [H | [H | H]]; [discriminate H | discriminate H | exact H]. }
  cbv zeta. split; [apply host_apply_wf, initial_state_wf | ].
  split; [reflexivity | ]. split; [reflexivity | ]. split; [reflexivity | ].
  split; [reflexivity | ]. split; [exact Hnw | ].
  intros [_ H]. apply Hnw. apply H. reflexivity.
Qed.

(** C1, amended: in a run from a state whose counter is 0, with the
    threshold and the confirm count left alone by the host, the wake-up
    fires iff the successful readings taken hold max(confirm_count, 1)
    consecutive readings at or above the threshold; the wake-up is followed
    by the halt alone, whatever inputs remain; and a reading equal to the
    threshold counts as above it. *)
Theorem wake_iff_confirmed_streak
    (ins : list input) (s : ulp_state) (more : list input) (raw : Z) (s1 : ulp_state) :
  wf_state s ->
  ulp_nh3_above_count s = 0 ->
  Forall keeps_config ins ->
  Forall is_i32 (map snd ins) ->
  (In EvWake (trace (main ins s)) <->
   has_streak (readings_needed s) (ulp_nh3_threshold_adc s)
     (successes (trace (main ins s))) = true) /\
  (In EvWake (trace (main ins s)) ->
   status (main ins s) = Halted /\
   (exists tr r,
      trace (main ins s) = tr ++ [EvRead r; EvWake; EvHalt] /\ ~ In EvWake tr) /\
   main (ins ++ more) s = main ins s) /\
  (0 <= raw -> u32 raw = ulp_nh3_threshold_adc s1 ->
   ulp_nh3_above_count (final_state (loop_body raw s1)) =
     u32 (ulp_nh3_above_count s1 + 1)).
Proof.
  intros Hwf Ha Hk Hin. split; [ | split].
  - rewrite (main_wake_iff_streak ins s Hwf Hk Hin) by (rewrite Ha; lia).
    rewrite Ha, Z.sub_0_r. fold (readings_needed s).
    rewrite window_or_streak. tauto.
  - intros Hw. destruct (main_wake_last ins s Hw) as (Hh & tr & r & E & Hnw & _).
    split; [exact Hh | ]. split; [exists tr, r; auto | ].
    rewrite main_app, Hh. reflexivity.
  - intros Hr Heq.
    destruct (loop_body_cases raw s1)
      as [(Hn & _) | [(_ & Hlt & _) | [(_ & _ & _ & B) | (_ & _ & _ & B)]]];
      [lia | lia | rewrite B; reflexivity ..].
Qed.

Lemma wake_iff_confirmed_streak_witness :
  wf_state initial_state /\
  ulp_nh3_above_count initial_state = 0 /\
  Forall keeps_config [(no_write, 1500); (no_write, -1); (no_write, 2000); (no_write, 1600)] /\
  Forall is_i32 (map snd [(no_write, 1500); (no_write, -1); (no_write, 2000); (no_write, 1600)]) /\
  In EvWake
    (trace (main [(no_write, 1500); (no_write, -1); (no_write, 2000); (no_write, 1600)]
              initial_state)).
Proof.
  assert (Hwf : wf_state initial_state).
  { unfold wf_state, is_u32, u32_modulus. simpl. lia. }
  assert (Ha : ulp_nh3_above_count initial_state = 0) by reflexivity.
  assert (Hk : Forall keeps_config
                 [(no_write, 1500); (no_write, -1); (no_write, 2000); (no_write, 1600)])
    by (repeat constructor).
  assert (Hin : Forall is_i32
                  (map snd [(no_write, 1500); (no_write, -1); (no_write, 2000); (no_write, 1600)])).
  { simpl. repeat constructor; unfold is_i32; lia. }
  split; [exact Hwf | ]. split; [exact Ha | ]. split; [exact Hk | ]. split; [exact Hin | ].
  apply (proj1 (wake_iff_confirmed_streak _ initial_state [] 0 initial_state Hwf Ha Hk Hin)).
  reflexivity.
Defined.

(** * The stop flag *)

Lemma reads_read_delay (raw d : Z) (tr : list event) :
  reads ([EvRead raw; EvDelay d] ++ tr) = raw :: reads tr.
Proof. reflexivity. Qed.

(** With the stop flag at zero and no host store to it, the loop goes on
    for as long as there are inputs, unless the wake-up ends it: every
    input's sensor value is read. *)
Lemma main_runs_while_stop_zero (ins : list input) :
  forall s : ulp_state,
    ulp_stop_flag s = 0 ->
    Forall keeps_stop ins ->
    ~ In EvWake (trace (main ins s)) ->
    status (main ins s) = Running /\
    reads (trace (main ins s)) = map snd ins /\
    ulp_stop_flag (final_state (main ins s)) = 0.
Proof.
  induction ins as [ | [h raw] ins IH]; intros s Hs Hk Hnw.
  - simpl. auto.
  - apply Forall_cons_iff in Hk. destruct Hk as [Hks Hk].
    unfold keeps_stop in Hks. cbn [fst] in Hks.
    assert (Hs1 : ulp_stop_flag (host_apply h s) = 0)
      by (simpl; rewrite Hks; exact Hs).
    rewrite main_cons in Hnw |- *.
    set (s1 := host_apply h s) in *. clearbody s1.
    unfold loop_iter in Hnw |- *. rewrite Hs1 in Hnw |- *.
    simpl (0 =? 0) in Hnw |- *. cbv iota in Hnw |- *.
    destruct (loop_body_cases raw s1)
      as [(_ & B) | [(_ & _ & B) | [(_ & _ & _ & B) | (_ & _ & _ & B)]]];
      rewrite B in Hnw |- *; cbn [final_state trace status fst snd map] in Hnw |- *.
    + rewrite in_wake_read_delay in Hnw. rewrite reads_read_delay.
      destruct (IH s1 Hs1 Hk Hnw) as (I1 & I2 & I3). rewrite I2. auto.
    + rewrite in_wake_read_delay in Hnw. rewrite reads_read_delay.
      match type of Hnw with
      | context [main ins ?s2] => destruct (IH s2 Hs1 Hk Hnw) as (I1 & I2 & I3)
      end.
      rewrite I2. auto.
    + rewrite in_wake_read_delay in Hnw. rewrite reads_read_delay.
      match type of Hnw with
      | context [main ins ?s2] => destruct (IH s2 Hs1 Hk Hnw) as (I1 & I2 & I3)
      end.
      rewrite I2. auto.
    + exfalso. apply Hnw. simpl. auto.
Qed.

(** C5: the loop runs until the stop flag is set.  An iteration that finds
    the flag at zero enters the body and reads the sensor, and unless that
    reading wakes the host the run goes on with the next input; so a run
    that starts with the flag at zero, in which the host does not store to
    it and no wake-up fires, is still running after any number of inputs
    and has read the sensor for every one of them.  An iteration that finds
    the flag nonzero, the first of the run or a later one, leaves the loop
    and halts, with no sensor read and no store to a shared variable,
    whatever inputs remain. *)
Theorem loop_runs_until_stop_flag
    (h : host_write) (raw : Z) (rest : list input) (s : ulp_state)
    (ins pre : list input) :
  (ulp_stop_flag s = 0 ->
   loop_iter raw s = loop_body raw s /\
   exists evs, trace (loop_iter raw s) = EvRead raw :: evs) /\
  (ulp_stop_flag s <> 0 -> loop_iter raw s = (s, [EvHalt], Halted)) /\
  (ulp_stop_flag (host_apply h s) <> 0 ->
   main ((h, raw) :: rest) s = (host_apply h s, [EvHalt], Halted)) /\
  (ulp_stop_flag (host_apply h s) = 0 ->
   forall s1 evs,
     loop_body raw (host_apply h s) = (s1, evs, Running) ->
     main ((h, raw) :: rest) s =
       (final_state (main rest s1), evs ++ trace (main rest s1), status (main rest s1))) /\
  (ulp_stop_flag s = 0 ->
   Forall keeps_stop ins ->
   ~ In EvWake (trace (main ins s)) ->
   status (main ins s) = Running /\
   reads (trace (main ins s)) = map snd ins) /\
  (status (main pre s) = Running ->
   ulp_stop_flag (host_apply h (final_state (main pre s))) <> 0 ->
   main (pre ++ (h, raw) :: rest) s =
     (host_apply h (final_state (main pre s)), trace (main pre s) ++ [EvHalt], Halted)).
Proof.
  assert (Hstop : forall st, ulp_stop_flag (host_apply h st) <> 0 ->
            main ((h, raw) :: rest) st = (host_apply h st, [EvHalt], Halted)).
  { intros st Hs. rewrite main_cons. unfold loop_iter.
    apply Z.eqb_neq in Hs. rewrite Hs. reflexivity. }
  split; [ | split; [ | split; [ | split; [ | split]]]].
  - intros Hs.
    assert (E : loop_iter raw s = loop_body raw s).
    { unfold loop_iter. rewrite Hs. reflexivity. }
    split; [exact E | ]. rewrite E.
    destruct (loop_body_cases raw s)
      as [(_ & B) | [(_ & _ & B) | [(_ & _ & _ & B) | (_ & _ & _ & B)]]];
      rewrite B; eexists; reflexivity.
  - intros Hs. unfold loop_iter. apply Z.eqb_neq in Hs. rewrite Hs. reflexivity.
  - apply Hstop.
  - intros Hs s1 evs B. rewrite main_cons. unfold loop_iter.
    rewrite Hs. simpl (0 =? 0). cbv iota. rewrite B. reflexivity.
  - intros Hs Hk Hnw.
    destruct (main_runs_while_stop_zero ins s Hs Hk Hnw) as (H1 & H2 & _). auto.
  - intros Hrun Hs. rewrite main_app, Hrun.
    rewrite (Hstop (final_state (main pre s)) Hs). reflexivity.
Qed.

Lemma loop_runs_until_stop_flag_witness :
  ulp_stop_flag initial_state = 0 /\
  Forall keeps_stop [(no_write, 1600); (no_write, -1); (no_write, 7); (no_write, 1700)] /\
  ~ In EvWake
      (trace (main [(no_write, 1600); (no_write, -1); (no_write, 7); (no_write, 1700)]
                initial_state)) /\
  status (main [(no_write, 1600); (no_write, -1); (no_write, 7); (no_write, 1700)]
            initial_state) = Running /\
  reads (trace (main [(no_write, 1600); (no_write, -1); (no_write, 7); (no_write, 1700)]
                  initial_state)) = [1600; -1; 7; 1700] /\
  ulp_stop_flag
    (host_apply {| hw_threshold := None; hw_confirm := None; hw_stop := Some 1 |}
       (final_state (main [(no_write, 1600)] initial_state))) <> 0 /\
  reads (trace (main ([(no_write, 1600)] ++
                      ({| hw_threshold := None; hw_confirm := None; hw_stop := Some 1 |}, 1700)
                      :: [(no_write, 1800)]) initial_state)) = [1600].
Proof.
  assert (Hs : ulp_stop_flag initial_state = 0) by reflexivity.
  assert (Hk : Forall keeps_stop
                 [(no_write, 1600); (no_write, -1); (no_write, 7); (no_write, 1700)])
    by (repeat constructor).
  assert (Hnw : ~ In EvWake
                  (trace (main [(no_write, 1600); (no_write, -1); (no_write, 7);
                                (no_write, 1700)] initial_state))).
  { simpl. intuition discriminate. }
  assert (Hset : ulp_stop_flag
            (host_apply {| hw_threshold := None; hw_confirm := None; hw_stop := Some 1 |}
               (final_state (main [(no_write, 1600)] initial_state))) <> 0)
    by (vm_compute; discriminate).
  pose proof (loop_runs_until_stop_flag
                {| hw_threshold := None; hw_confirm := None; hw_stop := Some 1 |}
                1700 [(no_write, 1800)] initial_state
                [(no_write, 1600); (no_write, -1); (no_write, 7); (no_write, 1700)]
                [(no_write, 1600)])
    as (_ & _ & _ & _ & Hgo & Hhalt).
  destruct (Hgo Hs Hk Hnw) as [Hrun Hreads].
  split; [exact Hs | ]. split; [exact Hk | ]. split; [exact Hnw | ].
  split; [exact Hrun | ]. split; [exact Hreads | ]. split; [exact Hset | ].
  exact (f_equal (fun r => reads (trace r)) (Hhalt eq_refl Hset)).
Defined.

(** * Beyond the interface contract *)

(** ** The program leaves the configuration to the host *)

Lemma same_config_refl (s : ulp_state) : same_config s s.
Proof. unfold same_config. auto. Qed.

Lemma same_config_trans (a b c : ulp_state) :
  same_config a b -> same_config b c -> same_config a c.
Proof.
  unfold same_config. intros (H1 & H2 & H3) (H4 & H5 & H6).
  rewrite H1, H2, H3. auto.
Qed.

Lemma loop_body_config (raw : Z) (s : ulp_state) :
  same_config (final_state (loop_body raw s)) s.
Proof.
  destruct (loop_body_cases raw s)
    as [(_ & B) | [(_ & _ & B) | [(_ & _ & _ & B) | (_ & _ & _ & B)]]];
    rewrite B; unfold same_config; simpl; auto.
Qed.

Lemma loop_iter_config (raw : Z) (s : ulp_state) :
  same_config (final_state (loop_iter raw s)) s.
Proof.
  unfold loop_iter. destruct (ulp_stop_flag s =? 0);
    [apply loop_body_config | apply same_config_refl].
Qed.

Lemma loop_iter_running_stop (raw : Z) (s : ulp_state) :
  status (loop_iter raw s) = Running -> ulp_stop_flag s = 0.
Proof.
  destruct (loop_iter_cases raw s) as [(_ & E) | (Hs & _)]; [ | auto].
  rewrite E. discriminate.
Qed.

Lemma host_apply_config (h : host_write) (a b : ulp_state) :
  same_config a b -> same_config (host_apply h a) (host_apply h b).
Proof.
  unfold same_config. intros (H1 & H2 & H3). simpl. rewrite H1, H2, H3. auto.
Qed.

Lemma host_stores_config (ins : list input) :
  forall a b : ulp_state,
    same_config a b -> same_config (host_stores ins a) (host_stores ins b).
Proof.
  induction ins as [ | [h raw] ins IH]; intros a b Hab; [exact Hab | ].
  apply (IH (host_apply h a) (host_apply h b)). apply host_apply_config. exact Hab.
Qed.

Lemma main_config_no_write (ins : list input) :
  forall s : ulp_state,
    Forall (fun i => fst i = no_write) ins ->
    same_config (final_state (main ins s)) s.
Proof.
  induction ins as [ | [h raw] ins IH]; intros s Hnw; [apply same_config_refl | ].
  apply Forall_cons_iff in Hnw. destruct Hnw as [Hh Hnw]. cbn [fst] in Hh. subst h.
  rewrite main_cons, host_apply_no_write.
  pose proof (loop_iter_config raw s) as Hc.
  destruct (loop_iter raw s) as [[s' evs] [ | ]]; cbn [final_state fst] in Hc |- *.
  - apply (same_config_trans _ s'); [apply IH; exact Hnw | exact Hc].
  - exact Hc.
Qed.

Lemma main_config_running (ins : list input) :
  forall s : ulp_state,
    status (main ins s) = Running ->
    same_config (final_state (main ins s)) (host_stores ins s).
Proof.
  induction ins as [ | [h raw] ins IH]; intros s Hrun; [apply same_config_refl | ].
  rewrite main_cons in Hrun |- *.
  change (host_stores ((h, raw) :: ins) s) with (host_stores ins (host_apply h s)).
  pose proof (loop_iter_config raw (host_apply h s)) as Hc.
  destruct (loop_iter raw (host_apply h s)) as [[s' evs] [ | ]];
    cbn [final_state status fst snd] in Hc, Hrun |- *; [ | discriminate Hrun].
  apply (same_config_trans _ (host_stores ins s')); [apply IH; exact Hrun | ].
  apply host_stores_config. exact Hc.
Qed.

(** X1: the program never stores to the threshold, the confirm count or
    the stop flag.  While it is running these hold what the host's stores
    made of them; in a run without host stores they hold at the end,
    whatever the end, what they held at the start. *)
Theorem config_written_by_host_only (ins : list input) (s : ulp_state) :
  (status (main ins s) = Running ->
   same_config (final_state (main ins s)) (host_stores ins s)) /\
  (Forall (fun i => fst i = no_write) ins ->
   same_config (final_state (main ins s)) s).
Proof.
  split; [apply main_config_running | apply main_config_no_write].
Qed.

Lemma config_written_by_host_only_witness :
  Forall (fun i : input => fst i = no_write)
    [(no_write, 1600); (no_write, 20); (no_write, 1700)] /\
  same_config
    (final_state (main [(no_write, 1600); (no_write, 20); (no_write, 1700)] initial_state))
    initial_state.
Proof.
  assert (Hnw : Forall (fun i : input => fst i = no_write)
                  [(no_write, 1600); (no_write, 20); (no_write, 1700)])
    by (repeat constructor).
  split; [exact Hnw | ].
  exact (proj2 (config_written_by_host_only _ initial_state) Hnw).
Defined.

(** ** Why the program halted *)

(** The body ends in the delay, with the program running, or in the
    wake-up and the halt. *)
Lemma loop_body_flow (raw : Z) (s : ulp_state) :
  (exists s2,
     loop_body raw s = (s2, [EvRead raw; EvDelay SAMPLE_INTERVAL_US], Running)) \/
  (exists s2, loop_body raw s = (s2, [EvRead raw; EvWake; EvHalt], Halted)).
Proof.
  destruct (loop_body_cases raw s)
    as [(_ & B) | [(_ & _ & B) | [(_ & _ & _ & B) | (_ & _ & _ & B)]]];
    rewrite B; [left | left | left | right]; eexists; reflexivity.
Qed.

Lemma main_halt_cause (ins : list input) :
  forall s : ulp_state,
    (status (main ins s) = Running -> ~ In EvHalt (trace (main ins s))) /\
    (status (main ins s) = Halted ->
     (exists tr, trace (main ins s) = tr ++ [EvHalt] /\ ~ In EvHalt tr) /\
     exists pre h raw rest,
       ins = pre ++ (h, raw) :: rest /\
       status (main pre s) = Running /\
       (ulp_stop_flag (host_apply h (final_state (main pre s))) <> 0 ->
        trace (main ins s) = trace (main pre s) ++ [EvHalt]) /\
       (ulp_stop_flag (host_apply h (final_state (main pre s))) = 0 ->
        trace (main ins s) = trace (main pre s) ++ [EvRead raw; EvWake; EvHalt])).
Proof.
  induction ins as [ | [h0 raw0] ins IH]; intros s.
  - simpl. split; [auto | discriminate].
  - rewrite main_cons.
    destruct (loop_iter_cases raw0 (host_apply h0 s)) as [(Hs & E) | (Hs & E)].
    + rewrite E. cbn [final_state trace status fst snd].
      split; [discriminate | ]. intros _. split.
      * exists []. simpl. auto.
      * exists [], h0, raw0, ins. split; [reflexivity | ]. split; [reflexivity | ].
        cbn [main final_state trace fst snd app].
        split; [reflexivity | intros H0; contradiction].
    + destruct (loop_body_flow raw0 (host_apply h0 s)) as [(s2 & B) | (s2 & B)].
      * assert (Hnh : forall tr,
                  In EvHalt ([EvRead raw0; EvDelay SAMPLE_INTERVAL_US] ++ tr) ->
                  In EvHalt tr).
        { simpl. intros tr [H | [H | H]]; [discriminate H | discriminate H | exact H]. }
        rewrite E, B. cbn [final_state trace status fst snd].
        destruct (IH s2) as [IHr IHh]. split.
        -- intros Hrun Hin. apply Hnh in Hin. exact (IHr Hrun Hin).
        -- intros Hh.
           destruct (IHh Hh)
             as [(tr & Etr & Hntr) (pre & h & raw & rest & Eins & Hrun & Hnz & Hz)].
           split.
           ++ exists ([EvRead raw0; EvDelay SAMPLE_INTERVAL_US] ++ tr).
              rewrite Etr, app_assoc. split; [reflexivity | ].
              intros Hin. apply Hnh in Hin. exact (Hntr Hin).
           ++ exists ((h0, raw0) :: pre), h, raw, rest.
              split; [rewrite Eins; reflexivity | ].
              rewrite main_cons, E, B. cbn [final_state trace status fst snd].
              split; [exact Hrun | ].
              split; intros Hseen;
                [rewrite (Hnz Hseen) | rewrite (Hz Hseen)];
                rewrite app_assoc; reflexivity.
      * rewrite E, B. cbn [final_state trace status fst snd].
        split; [discriminate | ]. intros _. split.
        -- exists [EvRead raw0; EvWake]. split; [reflexivity | ].
           simpl. intros [H | [H | H]]; [discriminate H | discriminate H | exact H].
        -- exists [], h0, raw0, ins. split; [reflexivity | ]. split; [reflexivity | ].
           cbn [main final_state trace fst snd app].
           split; [intros H0; contradiction | reflexivity].
Qed.

(** X2: the halt occurs in a trace iff the program halted, and is then its
    last event and occurs once.  A program that halted did so at an input
    up to which it was running, and what its last loop test found decides
    how: with the stop flag nonzero there the trace ends in the halt alone,
    with the stop flag at zero it ends in that input's sensor read, the
    wake-up and the halt.  So the wake-up fired iff the last loop test
    found the stop flag at zero. *)
Theorem halted_by_wake_or_by_stop (ins : list input) (s : ulp_state) :
  (status (main ins s) = Halted <-> In EvHalt (trace (main ins s))) /\
  (status (main ins s) = Halted ->
   (exists tr, trace (main ins s) = tr ++ [EvHalt] /\ ~ In EvHalt tr) /\
   exists pre h raw rest,
     ins = pre ++ (h, raw) :: rest /\
     status (main pre s) = Running /\
     (ulp_stop_flag (host_apply h (final_state (main pre s))) <> 0 ->
      trace (main ins s) = trace (main pre s) ++ [EvHalt]) /\
     (ulp_stop_flag (host_apply h (final_state (main pre s))) = 0 ->
      trace (main ins s) = trace (main pre s) ++ [EvRead raw; EvWake; EvHalt]) /\
     (In EvWake (trace (main ins s)) <->
      ulp_stop_flag (host_apply h (final_state (main pre s))) = 0)).
Proof.
  destruct (main_halt_cause ins s) as [Hr Hh]. split.
  - split.
    + intros H. destruct (Hh H) as [(tr & E & _) _]. rewrite E.
      apply in_or_app. right. simpl. auto.
    + intros Hin. destruct (status (main ins s)) eqn:E; [ | reflexivity].
      exfalso. exact (Hr eq_refl Hin).
  - intros H. destruct (Hh H) as [Hlast (pre & h & raw & rest & Eins & Hrun & Hnz & Hz)].
    split; [exact Hlast | ].
    exists pre, h, raw, rest.
    split; [exact Eins | ]. split; [exact Hrun | ].
    split; [exact Hnz | ]. split; [exact Hz | ].
    split.
    + intros Hw.
      destruct (Z.eq_dec (ulp_stop_flag (host_apply h (final_state (main pre s)))) 0)
        as [Hseen | Hseen]; [exact Hseen | ].
      exfalso. rewrite (Hnz Hseen) in Hw.
      apply in_app_or in Hw. destruct Hw as [Hw | Hw].
      * destruct (main_wake_last pre s Hw) as [Hhalted _].
        rewrite Hrun in Hhalted. discriminate Hhalted.
      * simpl in Hw. destruct Hw as [Hw | Hw]; [discriminate Hw | contradiction].
    + intros Hseen. rewrite (Hz Hseen). apply in_or_app. right. simpl. auto.
Qed.

Lemma halted_by_wake_or_by_stop_witness :
  status (main [(no_write, 1600);
                ({| hw_threshold := None; hw_confirm := None; hw_stop := Some 7 |}, 1700)]
            initial_state) = Halted /\
  exists tr,
    trace (main [(no_write, 1600);
                 ({| hw_threshold := None; hw_confirm := None; hw_stop := Some 7 |}, 1700)]
             initial_state) = tr ++ [EvHalt] /\
    ~ In EvHalt tr.
Proof.
  assert (Hh : status (main [(no_write, 1600);
                ({| hw_threshold := None; hw_confirm := None; hw_stop := Some 7 |}, 1700)]
            initial_state) = Halted) by reflexivity.
  split; [exact Hh | ].
  exact (proj1 (proj2 (halted_by_wake_or_by_stop _ initial_state) Hh)).
Defined.

(** ** A threshold no reading can reach *)

Lemma main_unreachable_threshold (ins : list input) :
  forall s : ulp_state,
    Forall keeps_threshold ins ->
    Forall is_i32 (map snd ins) ->
    2 ^ 31 <= ulp_nh3_threshold_adc s ->
    ~ In EvWake (trace (main ins s)) /\
    (ulp_nh3_above_count s = 0 ->
     ulp_nh3_above_count (final_state (main ins s)) = 0).
Proof.
  induction ins as [ | [h raw] ins IH]; intros s Hk Hin Hthr.
  - simpl. auto.
  - apply Forall_cons_iff in Hk. destruct Hk as [Hkt Hk].
    unfold keeps_threshold in Hkt. cbn [fst] in Hkt.
    simpl map in Hin. apply Forall_cons_iff in Hin. destruct Hin as [Hraw Hin].
    unfold is_i32 in Hraw.
    assert (Et : ulp_nh3_threshold_adc (host_apply h s) = ulp_nh3_threshold_adc s)
      by (simpl; rewrite Hkt; reflexivity).
    rewrite <- Et in Hthr. rewrite main_cons.
    change (ulp_nh3_above_count s) with (ulp_nh3_above_count (host_apply h s)).
    set (s1 := host_apply h s) in *. clearbody s1. clear Et.
    assert (Hu : 0 <= raw -> u32 raw = raw).
    { intros Hr. apply u32_small. unfold is_u32, u32_modulus. lia. }
    destruct (loop_iter_cases raw s1) as [(_ & E) | (_ & E)]; rewrite E.
    + cbn [final_state trace fst snd]. split; [ | auto].
      simpl. intros [H | H]; [discriminate H | contradiction].
    + destruct (loop_body_cases raw s1)
        as [(Hr & B) | [(Hr & _ & B) | [(Hr & Hge & _) | (Hr & Hge & _)]]];
        [ | | rewrite (Hu Hr) in Hge; lia ..];
        rewrite B; cbn [final_state trace status fst snd];
        rewrite in_wake_read_delay.
      * apply IH; assumption.
      * match goal with
        | |- context [main ins ?s2] => destruct (IH s2 Hk Hin Hthr) as [I1 I2]
        end.
        split; [exact I1 | ]. intros _. apply I2. reflexivity.
Qed.

(** X3: a threshold of 2^31 or more is out of reach of the sensor, whose
    successful readings are non-negative 32-bit signed values: as long as
    the host leaves such a threshold in place the wake-up never fires and
    the counter, once at 0, stays there. *)
Theorem threshold_out_of_reach_never_wakes (ins : list input) (s : ulp_state) :
  Forall keeps_threshold ins ->
  Forall is_i32 (map snd ins) ->
  2 ^ 31 <= ulp_nh3_threshold_adc s ->
  ~ In EvWake (trace (main ins s)) /\
  (ulp_nh3_above_count s = 0 ->
   ulp_nh3_above_count (final_state (main ins s)) = 0).
Proof. apply main_unreachable_threshold. Qed.

Lemma threshold_out_of_reach_never_wakes_witness :
  2 ^ 31 <=
    ulp_nh3_threshold_adc
      (host_apply {| hw_threshold := Some (2 ^ 31); hw_confirm := Some 1; hw_stop := None |}
         initial_state) /\
  ~ In EvWake
      (trace (main [(no_write, 2147483647); (no_write, 2147483647)]
                (host_apply
                   {| hw_threshold := Some (2 ^ 31); hw_confirm := Some 1; hw_stop := None |}
                   initial_state))).
Proof.
  assert (Hthr : 2 ^ 31 <=
            ulp_nh3_threshold_adc
              (host_apply
                 {| hw_threshold := Some (2 ^ 31); hw_confirm := Some 1; hw_stop := None |}
                 initial_state)) by (simpl; discriminate).
  split; [exact Hthr | ].
  apply (threshold_out_of_reach_never_wakes
           [(no_write, 2147483647); (no_write, 2147483647)]).
  - repeat constructor.
  - simpl. repeat constructor; unfold is_i32; lia.
  - exact Hthr.
Defined.

(** ** The shape of a trace *)

Lemma main_trace_shape (ins : list input) :
  forall s : ulp_state,
    exists pre post,
      ins = pre ++ post /\
      ((status (main ins s) = Running /\ post = [] /\
        trace (main ins s) = flat_map sample_and_wait pre) \/
       (status (main ins s) = Halted /\
        exists h raw rest,
          post = (h, raw) :: rest /\
          (trace (main ins s) = flat_map sample_and_wait pre ++ [EvHalt] \/
           trace (main ins s) =
             flat_map sample_and_wait pre ++ [EvRead raw; EvWake; EvHalt]))).
Proof.
  induction ins as [ | [h raw] ins IH]; intros s.
  - exists [], []. simpl. auto.
  - rewrite main_cons. set (s1 := host_apply h s). clearbody s1.
    destruct (loop_iter_cases raw s1) as [(_ & E) | (_ & E)]; rewrite E.
    + exists [], ((h, raw) :: ins). split; [reflexivity | ]. right.
      split; [reflexivity | ]. exists h, raw, ins. simpl. auto.
    + destruct (loop_body_cases raw s1)
        as [(_ & B) | [(_ & _ & B) | [(_ & _ & _ & B) | (_ & _ & _ & B)]]];
        rewrite B; cbn [final_state trace status fst snd].
      1-3: match goal with
           | |- context [main _ ?s2] =>
               destruct (IH s2) as (pre & post & Eins & Hcase)
           end;
           exists ((h, raw) :: pre), post;
           (split; [rewrite Eins; reflexivity | ]);
           cbn [flat_map sample_and_wait snd];
           destruct Hcase as [(Hst & Hp & Htr) | (Hst & h' & r' & rest & Hp & [Htr | Htr])];
           rewrite Htr;
           [left; auto
           | right; split; [exact Hst | ]; exists h', r', rest;
             split; [exact Hp | ]; left; rewrite <- app_assoc; reflexivity
           | right; split; [exact Hst | ]; exists h', r', rest;
             split; [exact Hp | ]; right; rewrite <- app_assoc; reflexivity].
      exists [], ((h, raw) :: ins). split; [reflexivity | ]. right.
      split; [reflexivity | ]. exists h, raw, ins. simpl. auto.
Qed.

(** X4: a trace is a sequence of samples, each a sensor read followed by a
    wait of one sample interval, taken from the inputs in order and without
    a gap; a running program has used every input this way, and a halted
    one has ended the sequence either by the halt alone, at an input whose
    loop test found the stop flag set, or by a last read of that input's
    sensor value followed by the wake-up and the halt. *)
Theorem trace_is_samples_then_halt (ins : list input) (s : ulp_state) :
  exists pre post,
    ins = pre ++ post /\
    ((status (main ins s) = Running /\ post = [] /\
      trace (main ins s) = flat_map sample_and_wait pre) \/
     (status (main ins s) = Halted /\
      exists h raw rest,
        post = (h, raw) :: rest /\
        (trace (main ins s) = flat_map sample_and_wait pre ++ [EvHalt] \/
         trace (main ins s) =
           flat_map sample_and_wait pre ++ [EvRead raw; EvWake; EvHalt]))).
Proof. apply main_trace_shape. Qed.

(** ** What the counter counts *)

Lemma leading_snoc (thr raw : Z) (l : list Z) :
  leading thr (rev (l ++ [raw])) =
  if at_or_above thr raw then S (leading thr (rev l)) else O.
Proof. rewrite rev_app_distr. reflexivity. Qed.

Lemma main_above_count_streak (ins : list input) :
  forall (s : ulp_state) (past : list Z),
    wf_state s ->
    Forall keeps_threshold ins ->
    Forall is_i32 (map snd ins) ->
    ulp_nh3_above_count s <= u32_modulus - 2 ->
    ulp_nh3_above_count s =
      Z.of_nat (leading (ulp_nh3_threshold_adc s) (rev past)) ->
    ulp_nh3_above_count (final_state (main ins s)) =
      Z.of_nat (leading (ulp_nh3_threshold_adc s)
                  (rev (past ++ successes (trace (main ins s))))).
Proof.
  induction ins as [ | [h raw] ins IH]; intros s past Hwf Hk Hin Hmax Hpast.
  - simpl. rewrite app_nil_r. exact Hpast.
  - apply Forall_cons_iff in Hk. destruct Hk as [Hkt Hk].
    unfold keeps_threshold in Hkt. cbn [fst] in Hkt.
    simpl map in Hin. apply Forall_cons_iff in Hin. destruct Hin as [Hraw Hin].
    unfold is_i32 in Hraw.
    assert (Et : ulp_nh3_threshold_adc (host_apply h s) = ulp_nh3_threshold_adc s)
      by (simpl; rewrite Hkt; reflexivity).
    apply (host_apply_wf h) in Hwf.
    change (ulp_nh3_above_count s) with (ulp_nh3_above_count (host_apply h s)) in Hmax, Hpast.
    rewrite <- Et in Hpast |- *. rewrite main_cons.
    set (s1 := host_apply h s) in *. clearbody s1. clear Et.
    pose proof (loop_body_wf raw s1 Hwf) as Hwf'.
    assert (Hcf : ulp_nh3_confirm_count s1 < u32_modulus) by apply Hwf.
    assert (Hnn : 0 <= ulp_nh3_above_count s1) by apply Hwf.
    assert (Hu : 0 <= raw -> u32 raw = raw).
    { intros Hr. apply u32_small. unfold is_u32, u32_modulus. lia. }
    set (k := ulp_nh3_above_count s1) in *.
    set (thr := ulp_nh3_threshold_adc s1) in *.
    destruct (loop_iter_cases raw s1) as [(_ & E) | (_ & E)]; rewrite E.
    + cbn [final_state trace fst snd successes reads filter].
      rewrite app_nil_r. exact Hpast.
    + destruct (loop_body_cases raw s1)
        as [(Hr & B) | [(Hr & Hlt & B) | [(Hr & Hge & Hlt & B) | (Hr & Hge & Hle & B)]]];
        try rewrite (Hu Hr) in *; fold k thr in B, Hwf'; try fold thr in Hlt;
        try fold thr in Hge; try fold k in Hlt; try fold k in Hle;
        rewrite B in Hwf' |- *; cbn [final_state trace status fst snd] in Hwf' |- *.
      * rewrite successes_app, successes_read_delay, (neg_leb _ Hr). cbn [app].
        apply (IH s1 past Hwf Hk Hin Hmax Hpast).
      * rewrite successes_app, successes_read_delay, (nonneg_leb _ Hr). cbn [app].
        match goal with
        | |- context [main ins ?s2] =>
            pose proof (IH s2 (past ++ [raw]) Hwf' Hk Hin) as IH'
        end.
        cbn [set_above_count set_cycle_count set_last_reading ulp_nh3_above_count
             ulp_nh3_threshold_adc] in IH'.
        fold thr in IH'. rewrite <- app_assoc in IH'. cbn [app] in IH'.
        apply IH'; [unfold u32_modulus; lia | ].
        rewrite leading_snoc. unfold at_or_above.
        apply Z.leb_gt in Hlt. rewrite Hlt. reflexivity.
      * assert (Hk1 : u32 (k + 1) = k + 1) by (apply u32_succ; lia).
        rewrite Hk1 in *.
        rewrite successes_app, successes_read_delay, (nonneg_leb _ Hr). cbn [app].
        match goal with
        | |- context [main ins ?s2] =>
            pose proof (IH s2 (past ++ [raw]) Hwf' Hk Hin) as IH'
        end.
        cbn [set_above_count set_cycle_count set_last_reading ulp_nh3_above_count
             ulp_nh3_threshold_adc] in IH'.
        fold thr in IH'. rewrite <- app_assoc in IH'. cbn [app] in IH'.
        apply IH'; [lia | ].
        rewrite leading_snoc. unfold at_or_above.
        apply Z.leb_le in Hge. rewrite Hge. lia.
      * assert (Hk1 : u32 (k + 1) = k + 1) by (apply u32_succ; lia).
        rewrite Hk1 in *.
        rewrite successes_read_wake, (nonneg_leb _ Hr).
        cbn [set_above_count ulp_nh3_above_count].
        rewrite leading_snoc. unfold at_or_above.
        apply Z.leb_le in Hge. rewrite Hge. lia.
Qed.

(** X5: in a run that starts with the counter at 0 and in which the host
    does not rewrite the threshold, the counter holds at every moment the
    length of the streak in progress: the number of the latest successful
    readings that are at or above the threshold without a break.  Changes
    of the confirm count and failed reads do not disturb this. *)
Theorem above_count_is_current_streak (ins : list input) (s : ulp_state) :
  wf_state s ->
  ulp_nh3_above_count s = 0 ->
  Forall keeps_threshold ins ->
  Forall is_i32 (map snd ins) ->
  ulp_nh3_above_count (final_state (main ins s)) =
    Z.of_nat (current_streak (ulp_nh3_threshold_adc s)
                (successes (trace (main ins s)))).
Proof.
  intros Hwf Ha Hk Hin. unfold current_streak.
  apply (main_above_count_streak ins s [] Hwf Hk Hin).
  - rewrite Ha. unfold u32_modulus. lia.
  - rewrite Ha. reflexivity.
Qed.

Lemma above_count_is_current_streak_witness :
  wf_state initial_state /\
  ulp_nh3_above_count initial_state = 0 /\
  ulp_nh3_above_count
    (final_state
       (main [(no_write, 1600); (no_write, 3); (no_write, 1700); (no_write, -1);
              ({| hw_threshold := None; hw_confirm := Some 9; hw_stop := None |}, 1500)]
          initial_state)) =
  Z.of_nat (current_streak 1500 [1600; 3; 1700; 1500]).
Proof.
  split; [exact initial_state_wf | ]. split; [reflexivity | ].
  rewrite (above_count_is_current_streak _ initial_state initial_state_wf eq_refl).
  - reflexivity.
  - repeat constructor.
  - simpl. repeat constructor; unfold is_i32; lia.
Defined.

(** ** The state the host finds when woken *)

Lemma main_wake_state (ins : list input) :
  forall s : ulp_state,
    wf_state s ->
    Forall keeps_confirm ins ->
    0 <= ulp_nh3_above_count s < Z.max 1 (ulp_nh3_confirm_count s) ->
    In EvWake (trace (main ins s)) ->
    ulp_nh3_above_count (final_state (main ins s)) =
      Z.max 1 (ulp_nh3_confirm_count s) /\
    ulp_nh3_confirm_count (final_state (main ins s)) = ulp_nh3_confirm_count s /\
    ulp_stop_flag (final_state (main ins s)) = 0.
Proof.
  induction ins as [ | [h raw] ins IH]; intros s Hwf Hk Hinv Hw.
  - simpl in Hw. contradiction.
  - apply Forall_cons_iff in Hk. destruct Hk as [Hkc Hk].
    unfold keeps_confirm in Hkc. cbn [fst] in Hkc.
    assert (Ec : ulp_nh3_confirm_count (host_apply h s) = ulp_nh3_confirm_count s)
      by (simpl; rewrite Hkc; reflexivity).
    apply (host_apply_wf h) in Hwf.
    change (ulp_nh3_above_count s) with (ulp_nh3_above_count (host_apply h s)) in Hinv.
    rewrite <- Ec in Hinv |- *. rewrite main_cons in Hw |- *.
    set (s1 := host_apply h s) in *. clearbody s1. clear Ec.
    pose proof (loop_body_wf raw s1 Hwf) as Hwf'.
    assert (Hcf : 0 <= ulp_nh3_confirm_count s1 < u32_modulus) by apply Hwf.
    assert (HM : 2 <= u32_modulus) by (unfold u32_modulus; lia).
    destruct (loop_iter_cases raw s1) as [(_ & E) | (Hstop & E)]; rewrite E in Hw |- *.
    + simpl in Hw. destruct Hw as [Hw | Hw]; [discriminate Hw | contradiction].
    + destruct (loop_body_cases raw s1)
        as [(Hr & B) | [(Hr & _ & B) | [(Hr & _ & Hlt & B) | (Hr & _ & Hle & B)]]];
        rewrite B in Hw, Hwf' |- *;
        cbn [final_state trace status fst snd] in Hw, Hwf' |- *.
      * apply not_wake_read_delay in Hw. apply IH; assumption.
      * apply not_wake_read_delay in Hw.
        match type of Hw with
        | context [main ins ?s2] => apply (IH s2 Hwf' Hk); [simpl; lia | exact Hw]
        end.
      * apply not_wake_read_delay in Hw.
        rewrite u32_succ in Hlt by lia.
        match type of Hw with
        | context [main ins ?s2] => apply (IH s2 Hwf' Hk); [ | exact Hw]
        end.
        simpl. rewrite u32_succ by lia. lia.
      * rewrite u32_succ in Hle by lia.
        cbn [set_above_count set_cycle_count set_last_reading ulp_nh3_above_count
             ulp_nh3_confirm_count ulp_stop_flag].
        rewrite u32_succ by lia. split; [lia | auto].
Qed.

(** X6: when the wake-up fires in a run that started with the counter at 0
    and in which the host did not rewrite the confirm count, the program
    has left the counter at max(confirm_count, 1) and the last reading at
    the sensor value whose read comes right before the wake-up in the
    trace. *)
Theorem state_found_on_wake (ins : list input) (s : ulp_state) :
  wf_state s ->
  ulp_nh3_above_count s = 0 ->
  Forall keeps_confirm ins ->
  In EvWake (trace (main ins s)) ->
  ulp_nh3_above_count (final_state (main ins s)) =
    Z.max 1 (ulp_nh3_confirm_count s) /\
  exists tr r,
    trace (main ins s) = tr ++ [EvRead r; EvWake; EvHalt] /\
    0 <= r /\
    ulp_nh3_last_reading (final_state (main ins s)) = u32 r.
Proof.
  intros Hwf Ha Hk Hw.
  destruct (main_wake_state ins s Hwf Hk) as (H1 & _ & _); [lia | exact Hw | ].
  destruct (main_wake_last ins s Hw) as (_ & tr & r & E & _ & Hr & _ & Hlast).
  split; [exact H1 | ]. exists tr, r. auto.
Qed.

Lemma state_found_on_wake_witness :
  In EvWake
    (trace (main [(no_write, 1600); (no_write, 1501); (no_write, 1500); (no_write, 4)]
              initial_state)) /\
  ulp_nh3_above_count
    (final_state (main [(no_write, 1600); (no_write, 1501); (no_write, 1500); (no_write, 4)]
                    initial_state)) = 3.
Proof.
  assert (Hw : In EvWake
                 (trace (main [(no_write, 1600); (no_write, 1501); (no_write, 1500);
                               (no_write, 4)] initial_state))).
  { simpl. auto 10. }
  split; [exact Hw | ].
  assert (Hk : Forall keeps_confirm
                 [(no_write, 1600); (no_write, 1501); (no_write, 1500); (no_write, 4)])
    by (repeat constructor).
  exact (proj1 (state_found_on_wake _ initial_state initial_state_wf eq_refl Hk Hw)).
Defined.

(** ** Failed reads are transparent *)

Lemma in_wake_app_r (evs tr1 tr2 : list event) :
  (In EvWake tr1 <-> In EvWake tr2) ->
  (In EvWake (evs ++ tr1) <-> In EvWake (evs ++ tr2)).
Proof. intros H. rewrite !in_app_iff, H. tauto. Qed.

Lemma main_drop_failed_reads (ins : list input) :
  forall s : ulp_state,
    ulp_stop_flag s = 0 ->
    Forall bare_failure ins ->
    final_state (main ins s) = final_state (main (drop_failed_reads ins) s) /\
    status (main ins s) = status (main (drop_failed_reads ins) s) /\
    successes (trace (main ins s)) =
      successes (trace (main (drop_failed_reads ins) s)) /\
    (In EvWake (trace (main ins s)) <->
     In EvWake (trace (main (drop_failed_reads ins) s))).
Proof.
  induction ins as [ | [h raw] ins IH]; intros s Hs Hb.
  - simpl. tauto.
  - apply Forall_cons_iff in Hb. destruct Hb as [Hh Hb].
    unfold bare_failure in Hh. cbn [fst snd] in Hh.
    unfold drop_failed_reads in *.
    change (filter read_succeeds ((h, raw) :: ins))
      with (if 0 <=? raw then (h, raw) :: filter read_succeeds ins
            else filter read_succeeds ins).
    destruct (0 <=? raw) eqn:Hr.
    + rewrite !main_cons.
      pose proof (loop_iter_running_stop raw (host_apply h s)) as Hrun.
      pose proof (loop_iter_config raw (host_apply h s)) as (_ & _ & Hcfg).
      destruct (loop_iter raw (host_apply h s)) as [[s' evs] [ | ]];
        cbn [final_state trace status fst snd] in Hrun, Hcfg |- *;
        [ | repeat split; auto].
      assert (Hs' : ulp_stop_flag s' = 0) by (rewrite Hcfg; apply Hrun; reflexivity).
      destruct (IH s' Hs' Hb) as (I1 & I2 & I3 & I4).
      split; [exact I1 | ]. split; [exact I2 | ].
      split; [rewrite !successes_app, I3; reflexivity | apply in_wake_app_r; exact I4].
    + apply Z.leb_gt in Hr. specialize (Hh Hr). subst h.
      rewrite main_cons, host_apply_no_write.
      unfold loop_iter. rewrite Hs. simpl (0 =? 0). cbv iota.
      destruct (loop_body_cases raw s)
        as [(_ & B) | [(Hn & _) | [(Hn & _) | (Hn & _)]]]; [ | lia ..].
      rewrite B. cbn [final_state trace status fst snd].
      destruct (IH s Hs Hb) as (I1 & I2 & I3 & I4).
      split; [exact I1 | ]. split; [exact I2 | ].
      rewrite in_wake_read_delay, successes_app, successes_read_delay, (neg_leb _ Hr).
      auto.
Qed.

(** X7: failed reads are transparent.  If the loop is entered with the stop
    flag at zero and no host store falls on an iteration whose read fails,
    the run ends in the same state, with the same status, the same
    successful readings and the same wake-up or absence of it as the run
    from which the failed reads are left out: a failed read costs a sample
    interval and nothing else, and does not break a streak. *)
Theorem failed_reads_are_transparent (ins : list input) (s : ulp_state) :
  ulp_stop_flag s = 0 ->
  Forall bare_failure ins ->
  final_state (main ins s) = final_state (main (drop_failed_reads ins) s) /\
  status (main ins s) = status (main (drop_failed_reads ins) s) /\
  successes (trace (main ins s)) =
    successes (trace (main (drop_failed_reads ins) s)) /\
  (In EvWake (trace (main ins s)) <->
   In EvWake (trace (main (drop_failed_reads ins) s))).
Proof. apply main_drop_failed_reads. Qed.

Lemma failed_reads_are_transparent_witness :
  ulp_stop_flag initial_state = 0 /\
  Forall bare_failure
    [(no_write, 1600); (no_write, -1); (no_write, 1700); (no_write, -5); (no_write, 1800)] /\
  final_state
    (main [(no_write, 1600); (no_write, -1); (no_write, 1700); (no_write, -5);
           (no_write, 1800)] initial_state) =
  final_state (main [(no_write, 1600); (no_write, 1700); (no_write, 1800)] initial_state).
Proof.
  assert (Hb : Forall bare_failure
                 [(no_write, 1600); (no_write, -1); (no_write, 1700); (no_write, -5);
                  (no_write, 1800)]).
  { repeat constructor; intros _; reflexivity. }
  split; [reflexivity | ]. split; [exact Hb | ].
  exact (proj1 (failed_reads_are_transparent _ initial_state eq_refl Hb)).
Defined.

(** ** How long the wake-up takes *)

Lemma main_wake_latency (ins : list input) :
  forall s : ulp_state,
    wf_state s ->
    ulp_stop_flag s = 0 ->
    0 <= ulp_nh3_above_count s < Z.max 1 (ulp_nh3_confirm_count s) ->
    Forall (exceeds (ulp_nh3_threshold_adc s)) ins ->
    Z.of_nat (List.length ins) =
      Z.max 1 (ulp_nh3_confirm_count s) - ulp_nh3_above_count s ->
    status (main ins s) = Halted /\
    In EvWake (trace (main ins s)) /\
    reads (trace (main ins s)) = map snd ins.
Proof.
  induction ins as [ | [h raw] ins IH]; intros s Hwf Hs Hinv Hex Hlen.
  - simpl in Hlen. lia.
  - apply Forall_cons_iff in Hex. destruct Hex as [(Hh & Hraw & Hthr) Hex].
    cbn [fst snd] in Hh, Hraw, Hthr. subst h.
    change (List.length ((no_write, raw) :: ins)) with (S (List.length ins)) in Hlen.
    rewrite main_cons, host_apply_no_write.
    unfold loop_iter. rewrite Hs. simpl (0 =? 0). cbv iota.
    pose proof (loop_body_wf raw s Hwf) as Hwf'.
    assert (Hcf : 0 <= ulp_nh3_confirm_count s < u32_modulus) by apply Hwf.
    assert (HM : 2 <= u32_modulus) by (unfold u32_modulus; lia).
    assert (Hu : u32 raw = raw).
    { apply u32_small. unfold is_u32, u32_modulus. lia. }
    assert (Hk1 : u32 (ulp_nh3_above_count s + 1) = ulp_nh3_above_count s + 1)
      by (apply u32_succ; lia).
    destruct (loop_body_cases raw s)
      as [(Hn & _) | [(_ & Hlt & _) | [(_ & _ & Hlt & B) | (_ & _ & Hle & B)]]];
      [lia | lia | | ]; rewrite Hu, Hk1 in *;
      rewrite B in Hwf' |- *; cbn [final_state trace status fst snd map] in Hwf' |- *.
    + match goal with
      | |- context [main ins ?s2] => destruct (IH s2 Hwf') as (I1 & I2 & I3)
      end.
      * exact Hs.
      * simpl. lia.
      * exact Hex.
      * simpl. lia.
      * split; [exact I1 | ]. split; [simpl; auto | ].
        cbn [app reads]. rewrite I3. reflexivity.
    + destruct ins as [ | i ins]; [ | simpl in Hlen; lia].
      split; [reflexivity | ]. split; [simpl; auto | reflexivity].
Qed.

(** X8: from a loop test with the stop flag at zero and the counter at k,
    below n = max(confirm_count, 1), a stretch of exactly n - k successful
    readings at or above the threshold, without host stores, ends in the
    wake-up, and the wake-up comes with the last of them and not before:
    every one of the readings is taken. *)
Theorem wake_after_exactly_the_readings_needed (ins : list input) (s : ulp_state) :
  wf_state s ->
  ulp_stop_flag s = 0 ->
  0 <= ulp_nh3_above_count s < Z.max 1 (ulp_nh3_confirm_count s) ->
  Forall (exceeds (ulp_nh3_threshold_adc s)) ins ->
  Z.of_nat (List.length ins) =
    Z.max 1 (ulp_nh3_confirm_count s) - ulp_nh3_above_count s ->
  status (main ins s) = Halted /\
  In EvWake (trace (main ins s)) /\
  reads (trace (main ins s)) = map snd ins.
Proof. apply main_wake_latency. Qed.

Lemma wake_after_exactly_the_readings_needed_witness :
  Forall (exceeds (ulp_nh3_threshold_adc initial_state))
    [(no_write, 1500); (no_write, 1501); (no_write, 4000)] /\
  reads (trace (main [(no_write, 1500); (no_write, 1501); (no_write, 4000)] initial_state)) =
  [1500; 1501; 4000].
Proof.
  assert (Hex : Forall (exceeds (ulp_nh3_threshold_adc initial_state))
                  [(no_write, 1500); (no_write, 1501); (no_write, 4000)]).
  { repeat constructor; simpl; lia. }
  split; [exact Hex | ].
  assert (Hinv : 0 <= ulp_nh3_above_count initial_state
                 < Z.max 1 (ulp_nh3_confirm_count initial_state)) by (simpl; lia).
  exact (proj2 (proj2
           (wake_after_exactly_the_readings_needed _ initial_state
              initial_state_wf eq_refl Hinv Hex eq_refl))).
Defined.
